(** * Browser / BrowserContext: target and context lifecycle

    A shallow embedding of the [Browser] and [BrowserContext] classes of
    the browser-automation control layer (the second document of
    [packages/cloudrun/src/cli/commands/render/renderMedia.ts]), and the
    properties its specification states about them.

    Conventions of the embedding:
    - a JavaScript [Map<string, V>] is an insertion-ordered association
      list ([JsMap]), because [targets()] and [browserContexts()] expose
      the order of the values;
    - the [Set<string>] of ignored target ids is a [gset string];
    - a handler returns the browser after it ran, the observable actions
      it performed, in order, and the error it threw, if any;
    - an [await] on a target's initialization splits a handler: what
      follows the [await] runs in the step that settles the
      initialization. *)

From Stdlib Require Import ZArith.
From stdpp Require Import gmap strings list.

Local Open Scope string_scope.

(** ** JavaScript values *)

(** Truthiness of a string: only the empty string is falsy. *)
Definition truthy (s : string) : bool := negb (bool_decide (s = "")).

(** Truthiness of an optional string ([undefined] is falsy). *)
Definition truthy_opt (o : option string) : bool :=
  match o with
  | Some s => truthy s
  | None => false
  end.

(** [x || undefined] on an optional string. *)
Definition or_undefined (o : option string) : option string :=
  if truthy_opt o then o else None.

(** What a JavaScript function can throw or a promise reject with.
    [Error] is [new Error(message)], the only exception the two classes
    construct themselves. *)
Inductive exn : Type :=
  | Error (message : string)
  | TimeoutError (subject : string) (timeout : Z)
  | ProtocolError (payload : string)
  | DisconnectedError.

(** Modelled from the spec: the [assert] helper ([./assert] is imported
    but not part of the sources); a failed assertion is a fatal error that
    carries the message. *)
Definition assert (value : bool) (message : string) : option exn :=
  if value then None else Some (Error message).

(** ** Insertion-ordered maps with string keys *)

Module JsMap.
Section Ops.
Context {V : Type}.

Fixpoint get (k : string) (m : list (string * V)) : option V :=
  match m with
  | [] => None
  | (k', v) :: rest => if decide (k = k') then Some v else get k rest
  end.

Definition has (k : string) (m : list (string * V)) : bool :=
  match get k m with
  | Some _ => true
  | None => false
  end.

(** [set] keeps the position of a key that is already present and
    appends a new key. *)
Fixpoint set (k : string) (v : V) (m : list (string * V))
  : list (string * V) :=
  match m with
  | [] => [(k, v)]
  | (k', v') :: rest =>
      if decide (k = k') then (k, v) :: rest else (k', v') :: set k v rest
  end.

Fixpoint delete (k : string) (m : list (string * V))
  : list (string * V) :=
  match m with
  | [] => []
  | (k', v') :: rest =>
      if decide (k = k') then delete k rest else (k', v') :: delete k rest
  end.

Definition keys (m : list (string * V)) : list string := m.*1.
Definition values (m : list (string * V)) : list V := m.*2.
Definition size (m : list (string * V)) : nat := length m.
End Ops.
End JsMap.

(** ** Protocol payloads *)

(** [Protocol.Target.TargetInfo], restricted to the fields the two
    classes read. *)
Record TargetInfo : Type := mkTargetInfo {
  targetId : string;
  type : string;
  url : string;
  browserContextId : option string;
}.

(** The events the connection delivers to the browser's handlers, and the
    settling of a tracked target's initialization. *)
Module Protocol.
Inductive Event : Type :=
  | targetCreated (targetInfo : TargetInfo)
  | targetDestroyed (targetId : string)
  | targetInfoChanged (targetInfo : TargetInfo)
  | initialized (targetId : string) (success : bool).
End Protocol.

(** The requests the two classes send over the connection. *)
Inductive Request : Type :=
  | Target_createBrowserContext
      (proxyServer : option string) (proxyBypassList : option string)
  | Target_disposeBrowserContext (contextId : string)
  | Browser_grantPermissions
      (origin : string) (contextId : option string)
      (permissions : list string)
  | Browser_resetPermissions (contextId : option string).

Definition method (r : Request) : string :=
  match r with
  | Target_createBrowserContext _ _ => "Target.createBrowserContext"
  | Target_disposeBrowserContext _ => "Target.disposeBrowserContext"
  | Browser_grantPermissions _ _ _ => "Browser.grantPermissions"
  | Browser_resetPermissions _ => "Browser.resetPermissions"
  end.

(** The remote end's answer to one request. *)
Inductive Response : Type :=
  | Success (payload : string)
  | Failure (e : exn).

(** ** BrowserContext and Target objects *)

(** A [BrowserContext] object: its [#id] field, absent in the default
    context. A context is represented by this field alone, so that two
    context objects that carry one id are not told apart; what depends on
    which of two such objects is meant is stated in terms of ids and of
    registry entries. *)
Record BrowserContext : Type := mkBrowserContext {
  _id : option string;
}.

Global Instance BrowserContext_eq_dec : EqDecision BrowserContext.
Proof. solve_decision. Defined.

Inductive InitState : Type :=
  | InitPending
  | InitSettled (success : bool).

(** Modelled from the spec: the [Target] class ([./Target] is imported
    but not part of the sources). A target holds its target-info
    snapshot, a back-reference to its owning context and an
    initialization state (pending / success / failed) that settles once. *)
Record Target : Type := mkTarget {
  _targetInfo : TargetInfo;
  _browserContext : BrowserContext;
  _initialized : InitState;
}.

(** Modelled from the spec: [new Target(targetInfo, context, ...)]. The
    initialization is pending at construction; its resolution, also one
    that the target decides on creation, is delivered as the
    [Protocol.initialized] step that follows. What is stated about a new
    target is stated through [Target_new], whatever state it starts in. *)
Definition Target_new (info : TargetInfo) (context : BrowserContext) : Target :=
  {| _targetInfo := info; _browserContext := context;
     _initialized := InitPending |}.

(** Modelled from the spec: [target._isInitialized]. *)
Definition _isInitialized (t : Target) : bool :=
  match _initialized t with
  | InitSettled true => true
  | _ => false
  end.

(** Modelled from the spec: [target.url()]. *)
Definition Target_url (t : Target) : string := url (_targetInfo t).

(** Modelled from the spec: [target._targetInfoChanged(info)] updates the
    stored info and nothing else. *)
Definition _targetInfoChanged (t : Target) (info : TargetInfo) : Target :=
  {| _targetInfo := info; _browserContext := _browserContext t;
     _initialized := _initialized t |}.

(** Modelled from the spec: [target._initializedCallback(success)]
    settles a pending initialization and does nothing to a settled one. *)
Definition _initializedCallback (t : Target) (success : bool) : Target :=
  match _initialized t with
  | InitPending =>
      {| _targetInfo := _targetInfo t; _browserContext := _browserContext t;
         _initialized := InitSettled success |}
  | InitSettled _ => t
  end.

(** ** Observable actions *)

Module BrowserEmittedEvents.
Inductive t : Type :=
  | Disconnected
  | TargetChanged
  | TargetCreated
  | TargetDestroyed.
End BrowserEmittedEvents.

(** The emitter an event is emitted on: the browser ([this.emit]) or a
    browser context ([context.emit]). *)
Inductive Scope : Type :=
  | AtBrowser
  | AtContext (context : BrowserContext).

Inductive Action : Type :=
  | Construct (t : Target)
  | Emit (scope : Scope) (event : BrowserEmittedEvents.t) (t : Target)
  | ClosedCallback (t : Target)
  | Send (r : Request).

(** ** Browser *)

Record Browser : Type := mkBrowser {
  _targetFilterCallback : TargetInfo -> bool;
  _isPageTargetCallback : TargetInfo -> bool;
  _defaultContext : BrowserContext;
  _contexts : list (string * BrowserContext);
  _targets : list (string * Target);
  _ignoredTargets : gset string;
}.

Definition with_contexts (b : Browser) (cs : list (string * BrowserContext))
  : Browser :=
  {| _targetFilterCallback := _targetFilterCallback b;
     _isPageTargetCallback := _isPageTargetCallback b;
     _defaultContext := _defaultContext b;
     _contexts := cs;
     _targets := _targets b;
     _ignoredTargets := _ignoredTargets b |}.

Definition with_targets (b : Browser) (ts : list (string * Target)) : Browser :=
  {| _targetFilterCallback := _targetFilterCallback b;
     _isPageTargetCallback := _isPageTargetCallback b;
     _defaultContext := _defaultContext b;
     _contexts := _contexts b;
     _targets := ts;
     _ignoredTargets := _ignoredTargets b |}.

Definition with_ignoredTargets (b : Browser) (s : gset string) : Browser :=
  {| _targetFilterCallback := _targetFilterCallback b;
     _isPageTargetCallback := _isPageTargetCallback b;
     _defaultContext := _defaultContext b;
     _contexts := _contexts b;
     _targets := _targets b;
     _ignoredTargets := s |}.

(** The default of [#setIsPageTargetCallback]. *)
Definition default_isPageTarget (target : TargetInfo) : bool :=
  bool_decide (type target = "page")
  || bool_decide (type target = "background_page")
  || bool_decide (type target = "webview").

(** The constructor: the registries it builds from [contextIds] and the
    optional callbacks. *)
Definition Browser_new (contextIds : list string)
    (targetFilterCallback : option (TargetInfo -> bool))
    (isPageTargetCallback : option (TargetInfo -> bool)) : Browser :=
  {| _targetFilterCallback := default (fun _ => true) targetFilterCallback;
     _isPageTargetCallback := default default_isPageTarget isPageTargetCallback;
     _defaultContext := mkBrowserContext None;
     _contexts :=
       fold_left
         (fun m contextId =>
            JsMap.set contextId (mkBrowserContext (Some contextId)) m)
         contextIds [];
     _targets := [];
     _ignoredTargets := ∅ |}.

(** What a handler or method leaves behind. *)
Record Outcome : Type := mkOutcome {
  after : Browser;
  actions : list Action;
  thrown : option exn;
}.

Definition returns (b : Browser) (acts : list Action) : Outcome :=
  {| after := b; actions := acts; thrown := None |}.

Definition throws (b : Browser) (acts : list Action) (e : exn) : Outcome :=
  {| after := b; actions := acts; thrown := Some e |}.

(** [browserContexts()]. *)
Definition browserContexts (b : Browser) : list BrowserContext :=
  _defaultContext b :: JsMap.values (_contexts b).

(** The context [#targetCreated] resolves for a target info
    ([undefined] when the lookup yields nothing). *)
Definition resolve_context (b : Browser) (targetInfo : TargetInfo)
  : option BrowserContext :=
  match browserContextId targetInfo with
  | Some cid =>
      if truthy cid && JsMap.has cid (_contexts b)
      then JsMap.get cid (_contexts b)
      else Some (_defaultContext b)
  | None => Some (_defaultContext b)
  end.

(** [#targetCreated], up to its [await]. *)
Definition targetCreated (b : Browser) (targetInfo : TargetInfo) : Outcome :=
  match resolve_context b targetInfo with
  | None => throws b [] (Error "Missing browser context")
  | Some context =>
      if negb (_targetFilterCallback b targetInfo) then
        returns
          (with_ignoredTargets b ({[targetId targetInfo]} ∪ _ignoredTargets b))
          []
      else
        let target := Target_new targetInfo context in
        match
          assert (negb (JsMap.has (targetId targetInfo) (_targets b)))
            "Target should not exist before targetCreated"
        with
        | Some e => throws b [Construct target] e
        | None =>
            returns
              (with_targets b
                 (JsMap.set (targetId targetInfo) target (_targets b)))
              [Construct target]
        end
  end.

(** The rest of [#targetCreated]: it runs when the initialization of the
    target it registered settles with [success]. *)
Definition targetCreated_resume (target : Target) (success : bool)
  : list Action :=
  if success then
    [Emit AtBrowser BrowserEmittedEvents.TargetCreated target;
     Emit (AtContext (_browserContext target))
       BrowserEmittedEvents.TargetCreated target]
  else [].

(** A tracked target's pending initialization settles (modelled from the
    spec, as the [Target] class is), and the [#targetCreated] call that
    awaits it resumes. *)
Definition initialized (b : Browser) (id : string) (success : bool) : Outcome :=
  match JsMap.get id (_targets b) with
  | Some target =>
      match _initialized target with
      | InitPending =>
          let target' := _initializedCallback target success in
          returns (with_targets b (JsMap.set id target' (_targets b)))
            (targetCreated_resume target' success)
      | InitSettled _ => returns b []
      end
  | None => returns b []
  end.

(** [#targetDestroyed]. *)
Definition targetDestroyed (b : Browser) (id : string) : Outcome :=
  if bool_decide (id ∈ _ignoredTargets b) then returns b []
  else
    match JsMap.get id (_targets b) with
    | None =>
        throws b []
          (Error ("Missing target in _targetDestroyed (id = " +:+ id +:+ ")"))
    | Some target =>
        let target' := _initializedCallback target false in
        returns (with_targets b (JsMap.delete id (_targets b)))
          (ClosedCallback target' ::
           if _isInitialized target' then
             [Emit AtBrowser BrowserEmittedEvents.TargetDestroyed target';
              Emit (AtContext (_browserContext target'))
                BrowserEmittedEvents.TargetDestroyed target']
           else [])
    end.

(** [#targetInfoChanged]. *)
Definition targetInfoChanged (b : Browser) (targetInfo : TargetInfo)
  : Outcome :=
  if bool_decide (targetId targetInfo ∈ _ignoredTargets b) then returns b []
  else
    match JsMap.get (targetId targetInfo) (_targets b) with
    | None =>
        throws b []
          (Error ("Missing target in targetInfoChanged (id = "
                  +:+ targetId targetInfo +:+ ")"))
    | Some target =>
        let previousURL := Target_url target in
        let wasInitialized := _isInitialized target in
        let target' := _targetInfoChanged target targetInfo in
        returns
          (with_targets b
             (JsMap.set (targetId targetInfo) target' (_targets b)))
          (if wasInitialized
              && negb (bool_decide (previousURL = Target_url target'))
           then
             [Emit AtBrowser BrowserEmittedEvents.TargetChanged target';
              Emit (AtContext (_browserContext target'))
                BrowserEmittedEvents.TargetChanged target']
           else [])
    end.

(** [Browser.targets()]. *)
Definition Browser_targets (b : Browser) : list Target :=
  List.filter _isInitialized (JsMap.values (_targets b)).

(** [BrowserContext.targets()]. *)
Definition BrowserContext_targets (b : Browser) (this : BrowserContext)
  : list Target :=
  List.filter (fun target => bool_decide (_browserContext target = this))
    (Browser_targets b).

(** One step of the browser on what the connection delivers. *)
Definition step (b : Browser) (e : Protocol.Event) : Outcome :=
  match e with
  | Protocol.targetCreated info => targetCreated b info
  | Protocol.targetDestroyed id => targetDestroyed b id
  | Protocol.targetInfoChanged info => targetInfoChanged b info
  | Protocol.initialized id success => initialized b id success
  end.

(** The browser after a sequence of deliveries; a handler that throws
    has not touched the registries, and the next delivery finds them as
    it left them. *)
Definition run (b : Browser) (es : list Protocol.Event) : Browser :=
  fold_left (fun b e => after (step b e)) es b.

(** ** Contexts: creation, disposal, permissions *)

(** [createIncognitoBrowserContext(options)]: the request it sends and,
    when the remote end answers with a context id, the context it
    registers and returns. *)
Definition createIncognitoBrowserContext (b : Browser)
    (proxyServer : option string) (proxyBypassList : option (list string))
    (response : Response) : Outcome * option BrowserContext :=
  let request :=
    Target_createBrowserContext proxyServer
      (String.concat "," <$> proxyBypassList) in
  match response with
  | Failure e => (throws b [Send request] e, None)
  | Success browserContextId =>
      let context := mkBrowserContext (Some browserContextId) in
      (returns
         (with_contexts b (JsMap.set browserContextId context (_contexts b)))
         [Send request],
       Some context)
  end.

(** [_disposeContext(contextId)]. *)
Definition _disposeContext (b : Browser) (contextId : option string)
    (response : Response) : Outcome :=
  match contextId with
  | Some cid =>
      if negb (truthy cid) then returns b []
      else
        match response with
        | Failure e => throws b [Send (Target_disposeBrowserContext cid)] e
        | Success _ =>
            returns (with_contexts b (JsMap.delete cid (_contexts b)))
              [Send (Target_disposeBrowserContext cid)]
        end
  | None => returns b []
  end.

(** [BrowserContext.isIncognito()]. *)
Definition isIncognito (this : BrowserContext) : bool := truthy_opt (_id this).

(** [BrowserContext.close()]. *)
Definition close (b : Browser) (this : BrowserContext) (response : Response)
  : Outcome :=
  match assert (truthy_opt (_id this)) "Non-incognito profiles cannot be closed!" with
  | Some e => throws b [] e
  | None => _disposeContext b (_id this) response
  end.

(** The table [WEB_PERMISSION_TO_PROTOCOL_PERMISSION]. *)
Definition WEB_PERMISSION_TO_PROTOCOL_PERMISSION : list (string * string) :=
  [ ("geolocation", "geolocation");
    ("midi", "midi");
    ("notifications", "notifications");
    ("camera", "videoCapture");
    ("microphone", "audioCapture");
    ("background-sync", "backgroundSync");
    ("ambient-light-sensor", "sensors");
    ("accelerometer", "sensors");
    ("gyroscope", "sensors");
    ("magnetometer", "sensors");
    ("accessibility-events", "accessibilityEvents");
    ("clipboard-read", "clipboardReadWrite");
    ("clipboard-write", "clipboardReadWrite");
    ("payment-handler", "paymentHandler");
    ("persistent-storage", "durableStorage");
    ("idle-detection", "idleDetection");
    ("midi-sysex", "midiSysex") ].

(** The callback of [permissions.map] in [overridePermissions]. *)
Definition protocolPermission (permission : string) : exn + string :=
  match JsMap.get permission WEB_PERMISSION_TO_PROTOCOL_PERMISSION with
  | Some token =>
      if truthy token then inr token
      else inl (Error ("Unknown permission: " +:+ permission))
  | None => inl (Error ("Unknown permission: " +:+ permission))
  end.

(** [permissions.map(callback)]: the callback runs on the names in order
    and the first error it throws ends the map. *)
Fixpoint protocolPermissions (permissions : list string)
  : exn + list string :=
  match permissions with
  | [] => inr []
  | permission :: rest =>
      match protocolPermission permission with
      | inl e => inl e
      | inr token =>
          match protocolPermissions rest with
          | inl e => inl e
          | inr tokens => inr (token :: tokens)
          end
      end
  end.

(** [BrowserContext.overridePermissions(origin, permissions)]. *)
Definition overridePermissions (b : Browser) (this : BrowserContext)
    (origin : string) (permissions : list string) (response : Response)
  : Outcome :=
  match protocolPermissions permissions with
  | inl e => throws b [] e
  | inr tokens =>
      let request :=
        Browser_grantPermissions origin (or_undefined (_id this)) tokens in
      match response with
      | Failure e => throws b [Send request] e
      | Success _ => returns b [Send request]
      end
  end.

(** The grant requests among a list of actions. *)
Definition grant_requests (acts : list Action) : list Request :=
  omap (fun a =>
          match a with
          | Send (Browser_grantPermissions o c ps) =>
              Some (Browser_grantPermissions o c ps)
          | _ => None
          end) acts.

(** ** waitForTarget *)

Inductive Settlement : Type :=
  | Pending
  | Fulfilled (target : Target)
  | Rejected (e : exn).

(** One call of [waitForTarget] in flight: the closure variables of the
    call ([predicate], [isResolved], the value [targetPromise] was
    resolved with), whether [check] is still registered as a listener,
    the time left on the timer of [waitWithTimeout] when there is one, and
    how the call has settled. *)
Record Waiter : Type := mkWaiter {
  predicate : Target -> bool;
  isResolved : bool;
  targetPromise : option Target;
  listening : bool;
  timer : option (Z * Z);
  settled : Settlement;
}.

(** The local function [check]. *)
Definition check (w : Waiter) (target : Target) : Waiter :=
  if predicate w target && negb (isResolved w) then
    {| predicate := predicate w; isResolved := true;
       targetPromise := Some target; listening := listening w;
       timer := timer w; settled := settled w |}
  else w.

(** The awaited promise settles the call, and [finally] removes the
    listeners. *)
Definition settle (w : Waiter) : Waiter :=
  match settled w, targetPromise w with
  | Pending, Some target =>
      {| predicate := predicate w; isResolved := isResolved w;
         targetPromise := targetPromise w; listening := false;
         timer := timer w; settled := Fulfilled target |}
  | _, _ => w
  end.

(** [waitForTarget(predicate, options)], up to its [await]; the option
    [timeout] defaults to 30000. *)
Definition waitForTarget (b : Browser) (predicate : Target -> bool)
    (options_timeout : option Z) : Waiter :=
  let timeout := default 30000%Z options_timeout in
  let w :=
    {| predicate := predicate; isResolved := false; targetPromise := None;
       listening := true; timer := None; settled := Pending |} in
  if (timeout =? 0)%Z then settle w
  else
    let w' := fold_left check (Browser_targets b) w in
    settle
      {| predicate := predicate; isResolved := isResolved w';
         targetPromise := targetPromise w'; listening := true;
         timer := Some (timeout, timeout); settled := Pending |}.

(** What reaches a call in flight: the browser emits [TargetCreated] or
    [TargetChanged] with a target, or time passes. *)
Inductive Stimulus : Type :=
  | Emitted (target : Target)
  | Elapsed (ms : Z).

(** Modelled from the spec: [waitWithTimeout(promise, 'target', timeout)]
    ([./util] is imported but not part of the sources) fails with a
    TimeoutError naming the wait subject and the duration once [timeout]
    milliseconds have passed without the promise settling. *)
Definition waitWithTimeout_elapse (w : Waiter) (ms : Z) : Waiter :=
  match settled w, timer w with
  | Pending, Some (timeout, remaining) =>
      if (remaining <=? ms)%Z then
        {| predicate := predicate w; isResolved := isResolved w;
           targetPromise := targetPromise w; listening := false;
           timer := Some (timeout, 0%Z);
           settled := Rejected (TimeoutError "target" timeout) |}
      else
        {| predicate := predicate w; isResolved := isResolved w;
           targetPromise := targetPromise w; listening := listening w;
           timer := Some (timeout, (remaining - ms)%Z); settled := settled w |}
  | _, _ => w
  end.

Definition react (w : Waiter) (s : Stimulus) : Waiter :=
  match s with
  | Emitted target => if listening w then settle (check w target) else w
  | Elapsed ms => waitWithTimeout_elapse w ms
  end.

Definition react_all (w : Waiter) (ss : list Stimulus) : Waiter :=
  fold_left react ss w.

(** The targets a list of stimuli delivers, in order. *)
Definition emitted_targets (ss : list Stimulus) : list Target :=
  omap (fun s => match s with Emitted t => Some t | Elapsed _ => None end) ss.

(** ** More of Browser and BrowserContext *)

(** [defaultBrowserContext()]. *)
Definition defaultBrowserContext (b : Browser) : BrowserContext :=
  _defaultContext b.

(** [BrowserContext.waitForTarget(predicate, options)]: the browser's
    [waitForTarget] with the predicate
    [target.browserContext() === this && predicate(target)]. *)
Definition BrowserContext_waitForTarget (b : Browser) (this : BrowserContext)
    (predicate : Target -> bool) (options_timeout : option Z) : Waiter :=
  waitForTarget b
    (fun target =>
       bool_decide (_browserContext target = this) && predicate target)
    options_timeout.

(** [BrowserContext.clearPermissionOverrides()]. *)
Definition clearPermissionOverrides (b : Browser) (this : BrowserContext)
    (response : Response) : Outcome :=
  let request := Browser_resetPermissions (or_undefined (_id this)) in
  match response with
  | Failure e => throws b [Send request] e
  | Success _ => returns b [Send request]
  end.

(** The members of the union type [Permission], in the order of its
    declaration. *)
Definition Permission : list string :=
  [ "geolocation"; "midi"; "notifications"; "camera"; "microphone";
    "background-sync"; "ambient-light-sensor"; "accelerometer"; "gyroscope";
    "magnetometer"; "accessibility-events"; "clipboard-read";
    "clipboard-write"; "payment-handler"; "persistent-storage";
    "idle-detection"; "midi-sysex" ].

(** The [Emit] actions of a list of actions, in order. *)
Definition emitted (acts : list Action)
  : list (Scope * BrowserEmittedEvents.t * Target) :=
  omap (fun a =>
          match a with
          | Emit scope event target => Some (scope, event, target)
          | _ => None
          end) acts.

(** The ids a sequence of deliveries leaves registered, in registration
    order, when it starts from the registered ids [ids]: an accepted
    creation appends its id and a destruction removes its id. *)
Fixpoint live_ids_from (filter : TargetInfo -> bool) (ids : list string)
    (es : list Protocol.Event) : list string :=
  match es with
  | [] => ids
  | Protocol.targetCreated info :: rest =>
      live_ids_from filter
        (if filter info then (ids ++ [targetId info])%list else ids) rest
  | Protocol.targetDestroyed id :: rest =>
      live_ids_from filter
        (List.filter (fun id' => negb (bool_decide (id' = id))) ids) rest
  | _ :: rest => live_ids_from filter ids rest
  end.

Definition live_ids (filter : TargetInfo -> bool) (es : list Protocol.Event)
  : list string :=
  live_ids_from filter [] es.

(** Every registered target is owned by a context that
    [browserContexts()] lists. *)
Definition owners_listed (b : Browser) : Prop :=
  forall id target,
    (id, target) ∈ _targets b -> _browserContext target ∈ browserContexts b.

(** A call of [waitForTarget] in flight is pending and listening with
    nothing resolved yet, or has settled and listens no more; a call that
    was fulfilled was fulfilled with a target its predicate accepts. *)
Definition waiter_ok (w : Waiter) : Prop :=
  match settled w with
  | Pending =>
      listening w = true /\ isResolved w = false /\ targetPromise w = None
  | Fulfilled target => listening w = false /\ predicate w target = true
  | Rejected _ => listening w = false
  end.

(** ** Vocabulary of the properties *)

Global Instance BrowserEmittedEvents_eq_dec : EqDecision BrowserEmittedEvents.t.
Proof. solve_decision. Defined.

(** The scopes at which [event] is emitted by a list of actions, in
    order. *)
Definition emissions (event : BrowserEmittedEvents.t) (acts : list Action)
  : list Scope :=
  omap (fun a =>
          match a with
          | Emit scope event' _ =>
              if decide (event' = event) then Some scope else None
          | _ => None
          end) acts.

(** The ids of the [targetCreated] and of the [targetDestroyed] events of
    a sequence, in order. *)
Definition created_ids (es : list Protocol.Event) : list string :=
  omap (fun e =>
          match e with
          | Protocol.targetCreated info => Some (targetId info)
          | _ => None
          end) es.

Definition destroyed_ids (es : list Protocol.Event) : list string :=
  omap (fun e =>
          match e with
          | Protocol.targetDestroyed id => Some id
          | _ => None
          end) es.

(** The number of [targetCreated] events of a sequence that the target
    filter accepts. *)
Fixpoint accepted_creations (filter : TargetInfo -> bool)
    (es : list Protocol.Event) : nat :=
  match es with
  | [] => 0
  | Protocol.targetCreated info :: rest =>
      (if filter info then 1 else 0) + accepted_creations filter rest
  | _ :: rest => accepted_creations filter rest
  end.

(** The number of [targetDestroyed] events of a sequence whose id is the
    id of an accepted creation that precedes them; [accepted] holds the
    ids accepted before the sequence starts. *)
Fixpoint matching_destructions_from (filter : TargetInfo -> bool)
    (accepted : list string) (es : list Protocol.Event) : nat :=
  match es with
  | [] => 0
  | Protocol.targetCreated info :: rest =>
      matching_destructions_from filter
        (if filter info then targetId info :: accepted else accepted) rest
  | Protocol.targetDestroyed id :: rest =>
      (if bool_decide (id ∈ accepted) then 1 else 0)
      + matching_destructions_from filter accepted rest
  | _ :: rest => matching_destructions_from filter accepted rest
  end.

Definition matching_destructions (filter : TargetInfo -> bool)
    (es : list Protocol.Event) : nat :=
  matching_destructions_from filter [] es.

(** Every target is registered under the id of its target info. *)
Definition registry_wf (b : Browser) : Prop :=
  forall id target,
    (id, target) ∈ _targets b -> targetId (_targetInfo target) = id.

(** The default context has no id and every other context is registered
    under its id. *)
Definition contexts_wf (b : Browser) : Prop :=
  _id (_defaultContext b) = None
  /\ forall cid context, (cid, context) ∈ _contexts b -> _id context = Some cid.

(** What relates a browser to the ids accepted so far and to the events
    still to come, along a sequence in which no id is created twice and
    none is destroyed twice. *)
Record tracking (b : Browser) (accepted : list string)
    (es : list Protocol.Event) : Prop := mkTracking {
  tr_keys : NoDup (JsMap.keys (_targets b));
  tr_created : NoDup (created_ids es);
  tr_destroyed : NoDup (destroyed_ids es);
  tr_fresh :
    forall id,
      id ∈ created_ids es -> (id ∉ accepted) /\ (id ∉ _ignoredTargets b);
  tr_registered :
    forall id, id ∈ JsMap.keys (_targets b) -> id ∈ accepted;
  tr_live :
    forall id,
      id ∈ destroyed_ids es -> id ∈ accepted -> id ∈ JsMap.keys (_targets b);
  tr_ignored : forall id, id ∈ _ignoredTargets b -> id ∉ accepted;
}.

(** ** Concrete browsers and events *)

(** A browser with no incognito context and the default callbacks, and
    the target info of the scenario: id "t1", type "page", context
    "ctx1". *)
Definition browser0 : Browser := Browser_new [] None None.

Definition info_t1_ctx1 : TargetInfo :=
  {| targetId := "t1"; type := "page"; url := "about:blank";
     browserContextId := Some "ctx1" |}.

Definition info_t1 (u : string) : TargetInfo :=
  {| targetId := "t1"; type := "page"; url := u; browserContextId := None |}.

(** A target filter that rejects the urls of browser-internal pages. *)
Definition filter_internal (info : TargetInfo) : bool :=
  negb (bool_decide (url info = "chrome://internal")).

Definition browser_filtering : Browser :=
  Browser_new [] (Some filter_internal) None.

Definition info_rejected : TargetInfo := info_t1 "chrome://internal".

(** A browser constructed with the incognito context "ctx1". *)
Definition browser_ctx1 : Browser := Browser_new ["ctx1"] None None.

Definition context_ctx1 : BrowserContext := mkBrowserContext (Some "ctx1").

(** Target "t1", initialized, owned by the default context. *)
Definition target_t1 : Target :=
  {| _targetInfo := info_t1 "about:blank";
     _browserContext := mkBrowserContext None;
     _initialized := InitSettled true |}.

(** A browser whose registry holds the initialized target "t1". *)
Definition browser_with_t1 : Browser :=
  run browser0
    [Protocol.targetCreated (info_t1 "about:blank");
     Protocol.initialized "t1" true].

(** What may follow the rejection of "t1": another target comes up, and
    events for "t1" keep arriving. *)
Definition after_rejection : list Protocol.Event :=
  [ Protocol.targetCreated
      {| targetId := "t2"; type := "page"; url := "about:blank";
         browserContextId := None |};
    Protocol.initialized "t2" true;
    Protocol.targetInfoChanged (info_t1 "about:blank");
    Protocol.targetDestroyed "t1" ].

(** A second creation of "t1", with a url that the filter accepts, and
    the success of its initialization. *)
Definition created_again : list Protocol.Event :=
  [ Protocol.targetCreated (info_t1 "about:blank");
    Protocol.initialized "t1" true ].

(** The filtering browser once it lists target "t1". *)
Definition browser_listing_t1 : Browser := run browser_filtering created_again.

(** A browser constructed with three incognito contexts. *)
Definition browser_abc : Browser := Browser_new ["a"; "b"; "c"] None None.

(** The filtering browser once it tracks target "t1". *)
Definition browser_tracking_t1 : Browser :=
  after (targetCreated browser_filtering (info_t1 "about:blank")).

(** Target "t1" is created, a target "t2" is rejected by the filter, both
    are destroyed, and "t1" is destroyed once more. *)
Definition lifecycle : list Protocol.Event :=
  [ Protocol.targetCreated (info_t1 "about:blank");
    Protocol.targetCreated
      {| targetId := "t2"; type := "page"; url := "chrome://internal";
         browserContextId := None |};
    Protocol.initialized "t1" true;
    Protocol.targetDestroyed "t2";
    Protocol.targetDestroyed "t1" ].

(** The event a delivery announces to the listeners, when it announces
    one: the settling of an initialization resumes [#targetCreated]. *)
Definition announced (e : Protocol.Event) : BrowserEmittedEvents.t :=
  match e with
  | Protocol.targetCreated _ => BrowserEmittedEvents.TargetCreated
  | Protocol.initialized _ _ => BrowserEmittedEvents.TargetCreated
  | Protocol.targetDestroyed _ => BrowserEmittedEvents.TargetDestroyed
  | Protocol.targetInfoChanged _ => BrowserEmittedEvents.TargetChanged
  end.

(** The filtering browser after "t1" was created twice: accepted first,
    rejected by the filter the second time. *)
Definition browser_t1_twice : Browser :=
  run browser_filtering
    [Protocol.targetCreated (info_t1 "about:blank");
     Protocol.targetCreated (info_t1 "chrome://internal")].

Definition info_of (id u : string) : TargetInfo :=
  {| targetId := id; type := "page"; url := u; browserContextId := None |}.

(** Four targets come up, one of them rejected by the filter; the first
    is destroyed, and so are the rejected one and a target that never
    came up. *)
Definition churn : list Protocol.Event :=
  [ Protocol.targetCreated (info_of "t1" "about:blank");
    Protocol.targetCreated (info_of "t2" "about:blank");
    Protocol.targetCreated (info_of "t3" "chrome://internal");
    Protocol.targetDestroyed "t1";
    Protocol.targetCreated (info_of "t4" "https://a.com");
    Protocol.targetDestroyed "t9";
    Protocol.targetDestroyed "t3" ].

(** * Properties *)

(** ** Insertion-ordered maps *)

Section JsMapFacts.
Context {V : Type}.
Implicit Types (m : list (string * V)) (k : string) (v : V).

Lemma get_None_keys m k : JsMap.get k m = None <-> k ∉ JsMap.keys m.
Proof.
  unfold JsMap.keys. induction m as [|[k' v'] m IH]; simpl.
  - split; [intros _; apply not_elem_of_nil | done].
  - rewrite not_elem_of_cons. destruct (decide (k = k')) as [->|Hne].
    + split; [done | intros [? _]; done].
    + rewrite IH. tauto.
Qed.

Lemma has_true m k : JsMap.has k m = true <-> is_Some (JsMap.get k m).
Proof.
  unfold JsMap.has. destruct (JsMap.get k m); split; intros H; done.
Qed.

Lemma has_false m k : JsMap.has k m = false <-> JsMap.get k m = None.
Proof. unfold JsMap.has. by destruct (JsMap.get k m). Qed.

Lemma get_set_eq m k v : JsMap.get k (JsMap.set k v m) = Some v.
Proof.
  induction m as [|[k' v'] m IH]; simpl.
  - by rewrite decide_True.
  - destruct (decide (k = k')) as [->|Hne]; simpl.
    + by rewrite decide_True.
    + by rewrite decide_False.
Qed.

Lemma get_set_ne m k k' v :
  k <> k' -> JsMap.get k' (JsMap.set k v m) = JsMap.get k' m.
Proof.
  intros Hne. induction m as [|[k0 v0] m IH]; simpl.
  - by rewrite decide_False.
  - destruct (decide (k = k0)) as [->|Hne0]; simpl.
    + by rewrite !decide_False.
    + by rewrite IH.
Qed.

Lemma get_delete_eq m k : JsMap.get k (JsMap.delete k m) = None.
Proof.
  induction m as [|[k' v'] m IH]; simpl; [done|].
  destruct (decide (k = k')); simpl; [done|]. by rewrite decide_False.
Qed.

Lemma get_delete_ne m k k' :
  k <> k' -> JsMap.get k' (JsMap.delete k m) = JsMap.get k' m.
Proof.
  intros Hne. induction m as [|[k0 v0] m IH]; simpl; [done|].
  destruct (decide (k = k0)) as [->|Hne0]; simpl.
  - by rewrite IH, decide_False.
  - by rewrite IH.
Qed.

Lemma keys_set_fresh m k v :
  JsMap.get k m = None -> JsMap.keys (JsMap.set k v m) = (JsMap.keys m ++ [k])%list.
Proof.
  unfold JsMap.keys. induction m as [|[k' v'] m IH]; simpl; [done|].
  destruct (decide (k = k')); [done|]. intros H. simpl. f_equal. by apply IH.
Qed.

Lemma keys_set_present m k v :
  is_Some (JsMap.get k m) -> JsMap.keys (JsMap.set k v m) = JsMap.keys m.
Proof.
  unfold JsMap.keys. induction m as [|[k' v'] m IH]; simpl.
  - by intros [? ?].
  - destruct (decide (k = k')) as [->|]; [done|]. intros H. simpl.
    f_equal. by apply IH.
Qed.

Lemma size_set_fresh m k v :
  JsMap.get k m = None -> JsMap.size (JsMap.set k v m) = S (JsMap.size m).
Proof.
  intros H. unfold JsMap.size.
  rewrite <- (length_fmap fst (JsMap.set k v m)), <- (length_fmap fst m).
  change (length (JsMap.keys (JsMap.set k v m)) = S (length (JsMap.keys m))).
  rewrite keys_set_fresh by done. rewrite length_app. simpl. lia.
Qed.

Lemma size_set_present m k v :
  is_Some (JsMap.get k m) -> JsMap.size (JsMap.set k v m) = JsMap.size m.
Proof.
  intros H. unfold JsMap.size.
  rewrite <- (length_fmap fst (JsMap.set k v m)), <- (length_fmap fst m).
  change (length (JsMap.keys (JsMap.set k v m)) = length (JsMap.keys m)).
  by rewrite keys_set_present.
Qed.

Lemma delete_absent m k : JsMap.get k m = None -> JsMap.delete k m = m.
Proof.
  induction m as [|[k' v'] m IH]; simpl; [done|].
  destruct (decide (k = k')); [done|]. intros H. by rewrite IH.
Qed.

Lemma size_delete_present m k :
  NoDup (JsMap.keys m) -> is_Some (JsMap.get k m) ->
  S (JsMap.size (JsMap.delete k m)) = JsMap.size m.
Proof.
  unfold JsMap.size, JsMap.keys.
  induction m as [|[k' v'] m IH]; simpl.
  - by intros _ [? ?].
  - rewrite NoDup_cons. intros [Hk' Hnd].
    destruct (decide (k = k')) as [->|Hne]; intros H; simpl.
    + rewrite delete_absent; [done|]. by apply get_None_keys.
    + by rewrite IH.
Qed.

Lemma keys_delete_NoDup m k :
  NoDup (JsMap.keys m) -> NoDup (JsMap.keys (JsMap.delete k m)).
Proof.
  unfold JsMap.keys. induction m as [|[k' v'] m IH]; simpl; [done|].
  rewrite NoDup_cons. intros [Hk' Hnd].
  destruct (decide (k = k')) as [->|Hne]; simpl; [by apply IH|].
  apply NoDup_cons. split; [|by apply IH].
  change (k' ∉ JsMap.keys (JsMap.delete k m)).
  apply get_None_keys. rewrite get_delete_ne by done.
  by apply get_None_keys.
Qed.

Lemma keys_set_NoDup m k v :
  NoDup (JsMap.keys m) -> NoDup (JsMap.keys (JsMap.set k v m)).
Proof.
  intros Hnd. destruct (JsMap.get k m) eqn:Hget.
  - by rewrite keys_set_present.
  - rewrite keys_set_fresh by done. apply NoDup_app. split; [done|].
    split; [|apply NoDup_singleton].
    intros x Hx Hin. apply list_elem_of_singleton in Hin as ->.
    by apply get_None_keys in Hget.
Qed.

Lemma elem_of_delete m k k' v :
  (k', v) ∈ JsMap.delete k m <-> k' <> k /\ (k', v) ∈ m.
Proof.
  induction m as [|[k0 v0] m IH]; simpl.
  - split; [intros H | intros [_ H]]; by apply elem_of_nil in H.
  - destruct (decide (k = k0)) as [->|Hne].
    + rewrite IH, elem_of_cons. intuition congruence.
    + rewrite !elem_of_cons, IH. intuition congruence.
Qed.

Lemma keys_get_Some m k :
  k ∈ JsMap.keys m <-> is_Some (JsMap.get k m).
Proof.
  rewrite <- not_eq_None_Some. rewrite get_None_keys.
  split; [tauto|]. intros H. by destruct (decide (k ∈ JsMap.keys m)).
Qed.

Lemma elem_of_set m k v k' v' :
  (k', v') ∈ JsMap.set k v m -> (k', v') = (k, v) \/ (k', v') ∈ m.
Proof.
  induction m as [|[k0 v0] m IH]; simpl.
  - rewrite list_elem_of_singleton. by left.
  - destruct (decide (k = k0)) as [->|Hne]; rewrite !elem_of_cons.
    + intros [?|?]; [by left | right; by right].
    + intros [?|Hin]; [right; by left|]. destruct (IH Hin); [by left|].
      right; by right.
Qed.

Lemma elem_of_get m k v :
  JsMap.get k m = Some v -> (k, v) ∈ m.
Proof.
  induction m as [|[k0 v0] m IH]; simpl; [done|].
  destruct (decide (k = k0)) as [->|Hne].
  - intros [= ->]. apply list_elem_of_here.
  - intros H. apply list_elem_of_further. by apply IH.
Qed.

Lemma elem_of_values m v :
  v ∈ JsMap.values m -> exists k, (k, v) ∈ m.
Proof.
  unfold JsMap.values. rewrite list_elem_of_fmap.
  intros ([k v'] & -> & Hin). by exists k.
Qed.

Lemma elem_of_keys m k v :
  (k, v) ∈ m -> k ∈ JsMap.keys m.
Proof.
  intros Hin. unfold JsMap.keys. apply list_elem_of_fmap. by exists (k, v).
Qed.
End JsMapFacts.

(** ** The context a created target is resolved to *)

(** The lookup behind [#targetCreated] always yields a context: when the
    registry has no entry for the event's context id, the default context
    stands in. *)
Lemma resolve_context_total b info :
  exists context, resolve_context b info = Some context.
Proof.
  unfold resolve_context. destruct (browserContextId info) as [cid|]; [|eauto].
  destruct (truthy cid); simpl; [|eauto].
  destruct (JsMap.has cid (_contexts b)) eqn:Hhas; [|eauto].
  apply has_true in Hhas as [context ->]. eauto.
Qed.

Lemma resolve_context_unknown b info cid :
  browserContextId info = Some cid ->
  JsMap.has cid (_contexts b) = false ->
  resolve_context b info = Some (_defaultContext b).
Proof.
  intros Hcid Hhas. unfold resolve_context. rewrite Hcid, Hhas.
  by rewrite andb_false_r.
Qed.


(** C1, as stated, fails: on a browser whose context registry is empty,
    the [targetCreated] event for target "t1" of type "page" in context
    "ctx1" throws nothing; the target is registered, owned by the default
    context. *)
Lemma targetCreated_unknown_context_no_error :
  JsMap.has "ctx1" (_contexts browser0) = false
  /\ thrown (targetCreated browser0 info_t1_ctx1) = None
  /\ JsMap.get "t1" (_targets (after (targetCreated browser0 info_t1_ctx1)))
     = Some (Target_new info_t1_ctx1 (_defaultContext browser0)).
Proof. repeat split. Qed.

(** C1 (amended): when a [targetCreated] event carries a browser-context
    id that matches no registered BrowserContext, the handler resolves the
    target to the default context and processes it: a target the filter
    rejects is recorded as ignored, a target the filter accepts under an
    id that is not registered yet is registered with the default context
    as its owner, and in neither case is an error thrown. *)
Theorem targetCreated_unknown_context_default b info cid :
  browserContextId info = Some cid ->
  JsMap.has cid (_contexts b) = false ->
  resolve_context b info = Some (_defaultContext b)
  /\ (_targetFilterCallback b info = false ->
      thrown (targetCreated b info) = None
      /\ targetId info ∈ _ignoredTargets (after (targetCreated b info))
      /\ _targets (after (targetCreated b info)) = _targets b)
  /\ (_targetFilterCallback b info = true ->
      JsMap.has (targetId info) (_targets b) = false ->
      thrown (targetCreated b info) = None
      /\ JsMap.get (targetId info) (_targets (after (targetCreated b info)))
         = Some (Target_new info (_defaultContext b)))
  /\ (thrown (targetCreated b info) = None
      \/ thrown (targetCreated b info)
         = Some (Error "Target should not exist before targetCreated")).
Proof.
  intros Hcid Hhas.
  pose proof (resolve_context_unknown b info cid Hcid Hhas) as Hres.
  split; [done|]. unfold targetCreated. rewrite Hres. split; [|split].
  - intros ->. simpl. split; [done|]. split; [set_solver | done].
  - intros -> ->. simpl. split; [done|]. apply get_set_eq.
  - destruct (_targetFilterCallback b info); simpl; [|by left].
    destruct (JsMap.has (targetId info) (_targets b)); simpl; eauto.
Qed.

Lemma targetCreated_unknown_context_default_witness :
  resolve_context browser0 info_t1_ctx1 = Some (_defaultContext browser0)
  /\ (_targetFilterCallback browser0 info_t1_ctx1 = false ->
      thrown (targetCreated browser0 info_t1_ctx1) = None
      /\ targetId info_t1_ctx1
         ∈ _ignoredTargets (after (targetCreated browser0 info_t1_ctx1))
      /\ _targets (after (targetCreated browser0 info_t1_ctx1))
         = _targets browser0)
  /\ (_targetFilterCallback browser0 info_t1_ctx1 = true ->
      JsMap.has (targetId info_t1_ctx1) (_targets browser0) = false ->
      thrown (targetCreated browser0 info_t1_ctx1) = None
      /\ JsMap.get (targetId info_t1_ctx1)
           (_targets (after (targetCreated browser0 info_t1_ctx1)))
         = Some (Target_new info_t1_ctx1 (_defaultContext browser0)))
  /\ (thrown (targetCreated browser0 info_t1_ctx1) = None
      \/ thrown (targetCreated browser0 info_t1_ctx1)
         = Some (Error "Target should not exist before targetCreated")).
Proof.
  apply (targetCreated_unknown_context_default browser0 info_t1_ctx1 "ctx1");
    reflexivity.
Defined.

(** ** Destruction of an unknown target *)

(** C5: a [targetDestroyed] event whose target id is neither registered
    nor ignored makes the handler throw; the browser (registry included)
    is left as it was and nothing is emitted. *)
Theorem targetDestroyed_unknown_throws b id :
  id ∉ _ignoredTargets b ->
  JsMap.get id (_targets b) = None ->
  thrown (targetDestroyed b id)
  = Some (Error ("Missing target in _targetDestroyed (id = " +:+ id +:+ ")"))
  /\ after (targetDestroyed b id) = b
  /\ actions (targetDestroyed b id) = [].
Proof.
  intros Hign Hget. unfold targetDestroyed.
  rewrite bool_decide_eq_false_2 by done. by rewrite Hget.
Qed.

Lemma targetDestroyed_unknown_throws_witness :
  thrown (targetDestroyed browser0 "t9")
  = Some (Error "Missing target in _targetDestroyed (id = t9)")
  /\ after (targetDestroyed browser0 "t9") = browser0
  /\ actions (targetDestroyed browser0 "t9") = [].
Proof.
  apply (targetDestroyed_unknown_throws browser0 "t9").
  - apply not_elem_of_empty.
  - reflexivity.
Defined.

(** ** Change of a tracked target's info *)



(** C6: a [targetInfoChanged] event for a tracked target that is not
    ignored throws nothing and stores the new target info; TargetChanged
    is emitted once at browser scope and once at the scope of the owning
    context when the target was initialized before the event and its url
    differs after the update, and otherwise the handler emits nothing. *)
Theorem targetInfoChanged_tracked b info target :
  targetId info ∉ _ignoredTargets b ->
  JsMap.get (targetId info) (_targets b) = Some target ->
  thrown (targetInfoChanged b info) = None
  /\ (exists target',
        JsMap.get (targetId info) (_targets (after (targetInfoChanged b info)))
        = Some target'
        /\ _targetInfo target' = info
        /\ _browserContext target' = _browserContext target
        /\ actions (targetInfoChanged b info)
           = (if _isInitialized target
                 && negb (bool_decide (Target_url target = Target_url target'))
              then
                [Emit AtBrowser BrowserEmittedEvents.TargetChanged target';
                 Emit (AtContext (_browserContext target))
                   BrowserEmittedEvents.TargetChanged target']
              else []))
  /\ emissions BrowserEmittedEvents.TargetChanged
       (actions (targetInfoChanged b info))
     = (if _isInitialized target
           && negb (bool_decide (Target_url target = url info))
        then [AtBrowser; AtContext (_browserContext target)]
        else []).
Proof.
  intros Hign Hget. unfold targetInfoChanged.
  rewrite bool_decide_eq_false_2 by done. rewrite Hget. simpl.
  split; [done|]. split.
  - eexists. rewrite get_set_eq. by repeat split.
  - replace (Target_url (_targetInfoChanged target info)) with (url info)
      by reflexivity.
    by destruct (_isInitialized target
                 && negb (bool_decide (Target_url target = url info))).
Qed.

Lemma targetInfoChanged_tracked_witness :
  thrown (targetInfoChanged browser_with_t1 (info_t1 "https://a.com")) = None
  /\ emissions BrowserEmittedEvents.TargetChanged
       (actions (targetInfoChanged browser_with_t1 (info_t1 "https://a.com")))
     = [AtBrowser; AtContext (mkBrowserContext None)].
Proof.
  destruct (targetInfoChanged_tracked browser_with_t1 (info_t1 "https://a.com")
              target_t1) as (Hthrown & _ & Hemit).
  - apply not_elem_of_empty.
  - reflexivity.
  - split; [exact Hthrown | exact Hemit].
Defined.

Example targetInfoChanged_same_url_or_uninitialized :
  actions (targetInfoChanged browser_with_t1 (info_t1 "about:blank")) = []
  /\ actions
       (targetInfoChanged
          (after (targetCreated browser0 (info_t1 "about:blank")))
          (info_t1 "https://a.com"))
     = [].
Proof. split; reflexivity. Qed.

(** ** Size of the target registry *)

Lemma run_cons b e es : run b (e :: es) = run (after (step b e)) es.
Proof. reflexivity. Qed.

Lemma step_targetFilterCallback b e :
  _targetFilterCallback (after (step b e)) = _targetFilterCallback b.
Proof.
  destruct e as [info|id|info|id success]; simpl.
  - unfold targetCreated. destruct (resolve_context b info); [|done].
    destruct (_targetFilterCallback b info); simpl; [|done].
    by destruct (JsMap.has (targetId info) (_targets b)).
  - unfold targetDestroyed. case_bool_decide; [done|].
    by destruct (JsMap.get id (_targets b)).
  - unfold targetInfoChanged. case_bool_decide; [done|].
    by destruct (JsMap.get (targetId info) (_targets b)).
  - unfold initialized. destruct (JsMap.get id (_targets b)) as [t|]; [|done].
    by destruct (_initialized t).
Qed.

Lemma tracking_same_registry b b' accepted es es' :
  JsMap.keys (_targets b') = JsMap.keys (_targets b) ->
  _ignoredTargets b' = _ignoredTargets b ->
  created_ids es' = created_ids es ->
  destroyed_ids es' = destroyed_ids es ->
  tracking b accepted es -> tracking b' accepted es'.
Proof.
  intros Hk Hi Hc Hd [H1 H2 H3 H4 H5 H6 H7].
  split; rewrite ?Hk, ?Hi, ?Hc, ?Hd; done.
Qed.

Lemma tracking_size es :
  forall b accepted,
    tracking b accepted es ->
    JsMap.size (_targets (run b es))
    + matching_destructions_from (_targetFilterCallback b) accepted es
    = JsMap.size (_targets b)
      + accepted_creations (_targetFilterCallback b) es.
Proof.
  induction es as [|e es IH]; intros b accepted Htr; [simpl; lia|].
  rewrite run_cons.
  destruct e as [info|id|info|id success]; simpl.
  - (* targetCreated *)
    destruct Htr as [H1 H2 H3 H4 H5 H6 H7]. simpl in *.
    apply NoDup_cons in H2 as [Hnew H2].
    destruct (H4 (targetId info)) as [Hacc Hign]; [apply list_elem_of_here|].
    assert (JsMap.get (targetId info) (_targets b) = None) as Hget.
    { apply get_None_keys. intros Hin. by apply Hacc, H5. }
    unfold targetCreated. destruct (resolve_context_total b info) as [ctx ->].
    destruct (_targetFilterCallback b info) eqn:Hf; simpl.
    + apply has_false in Hget as Hhas. rewrite Hhas. simpl.
      set (b' := with_targets b _).
      assert (tracking b' (targetId info :: accepted) es) as Htr'.
      { subst b'. split; simpl.
        - by apply keys_set_NoDup.
        - done.
        - done.
        - intros id Hid.
          destruct (H4 id) as [? ?]; [by apply list_elem_of_further|].
          split; [|done]. apply not_elem_of_cons. split; [|done].
          intros ->. done.
        - intros id. rewrite keys_set_fresh by done.
          rewrite elem_of_app, list_elem_of_singleton, elem_of_cons.
          intros [?| ->]; [right; by apply H5 | by left].
        - intros id Hd. rewrite keys_set_fresh by done.
          rewrite elem_of_app, list_elem_of_singleton, elem_of_cons.
          intros [->|?]; [by right | left; by apply H6].
        - intros id Hid. apply not_elem_of_cons. split; [|by apply H7].
          intros ->. done. }
      specialize (IH b' _ Htr'). subst b'. simpl in IH.
      rewrite size_set_fresh in IH by done. lia.
    + set (b' := with_ignoredTargets b _).
      assert (tracking b' accepted es) as Htr'.
      { subst b'. split; simpl; try done.
        - intros id Hid.
          destruct (H4 id) as [? ?]; [by apply list_elem_of_further|].
          split; [done|]. rewrite elem_of_union, elem_of_singleton.
          intros [->|?]; done.
        - intros id. rewrite elem_of_union, elem_of_singleton.
          intros [->|?]; [done | by apply H7]. }
      specialize (IH b' _ Htr'). subst b'. simpl in IH. lia.
  - (* targetDestroyed *)
    destruct Htr as [H1 H2 H3 H4 H5 H6 H7]. simpl in *.
    apply NoDup_cons in H3 as [Hnew H3].
    unfold targetDestroyed. case_bool_decide as Hign; simpl.
    + rewrite (bool_decide_eq_false_2 (id ∈ accepted)) by by apply H7.
      rewrite <- (IH b accepted); [done|].
      split; try done. intros id' Hd. apply H6. by apply list_elem_of_further.
    + destruct (JsMap.get id (_targets b)) as [target|] eqn:Hget; simpl.
      * assert (id ∈ JsMap.keys (_targets b)) as Hin
          by (apply keys_get_Some; eauto).
        rewrite (bool_decide_eq_true_2 (id ∈ accepted)) by by apply H5.
        set (b' := with_targets b _).
        assert (tracking b' accepted es) as Htr'.
        { subst b'. split; simpl; try done.
          - by apply keys_delete_NoDup.
          - intros id'. rewrite !keys_get_Some.
            destruct (decide (id = id')) as [->|Hne].
            + rewrite get_delete_eq. by intros [? ?].
            + rewrite get_delete_ne by done. rewrite <- keys_get_Some.
              apply H5.
          - intros id' Hd Hacc. rewrite keys_get_Some.
            rewrite get_delete_ne by (intros ->; done).
            rewrite <- keys_get_Some. apply H6; [|done].
            by apply list_elem_of_further. }
        specialize (IH b' _ Htr'). subst b'. simpl in IH.
        pose proof (size_delete_present (_targets b) id H1) as Hsize.
        rewrite <- Hsize by eauto. lia.
      * assert (id ∉ accepted) as Hacc.
        { intros Hacc. apply get_None_keys in Hget. apply Hget.
          apply H6; [apply list_elem_of_here | done]. }
        rewrite (bool_decide_eq_false_2 (id ∈ accepted)) by done.
        rewrite <- (IH b accepted); [done|].
        split; try done. intros id' Hd. apply H6.
        by apply list_elem_of_further.
  - (* targetInfoChanged *)
    unfold targetInfoChanged. case_bool_decide as Hign; simpl.
    + apply IH. eapply tracking_same_registry; [..|exact Htr]; done.
    + destruct (JsMap.get (targetId info) (_targets b)) as [target|] eqn:Hget;
        simpl.
      * set (b' := with_targets b _).
        assert (tracking b' accepted es) as Htr'.
        { eapply tracking_same_registry; [..|exact Htr]; try done.
          subst b'. simpl. apply keys_set_present. eauto. }
        specialize (IH b' _ Htr'). subst b'. simpl in IH.
        rewrite size_set_present in IH by eauto. done.
      * apply IH. eapply tracking_same_registry; [..|exact Htr]; done.
  - (* initialized *)
    unfold initialized.
    destruct (JsMap.get id (_targets b)) as [target|] eqn:Hget; simpl.
    + destruct (_initialized target); simpl.
      * set (b' := with_targets b _).
        assert (tracking b' accepted es) as Htr'.
        { eapply tracking_same_registry; [..|exact Htr]; try done.
          subst b'. simpl. apply keys_set_present. eauto. }
        specialize (IH b' _ Htr'). subst b'. simpl in IH.
        rewrite size_set_present in IH by eauto. done.
      * apply IH. eapply tracking_same_registry; [..|exact Htr]; done.
    + apply IH. eapply tracking_same_registry; [..|exact Htr]; done.
Qed.

(** Closed goals [NoDup [id1; ...; idn]] over string literals. *)
Ltac distinct_ids :=
  repeat (apply NoDup_cons; split;
          [rewrite ?elem_of_cons, elem_of_nil; intuition discriminate|]);
  apply NoDup_nil_2.

Lemma tracking_start contextIds targetFilterCallback isPageTargetCallback es :
  NoDup (created_ids es) -> NoDup (destroyed_ids es) ->
  tracking (Browser_new contextIds targetFilterCallback isPageTargetCallback)
    [] es.
Proof.
  intros Hc Hd. split; simpl; try done.
  - apply NoDup_nil_2.
  - intros id _. split; [apply not_elem_of_nil | apply not_elem_of_empty].
Qed.

(** C3, as stated, fails in its last clause: the filtering browser
    tracks "t1", and a second [targetCreated] for "t1", whose info the
    target filter rejects, throws nothing. *)
Lemma duplicate_creation_rejected_by_filter :
  JsMap.has "t1" (_targets browser_tracking_t1) = true
  /\ thrown (targetCreated browser_tracking_t1 (info_t1 "chrome://internal"))
     = None.
Proof. split; reflexivity. Qed.

(** C3 (amended): along every sequence of deliveries to a new browser in
    which no target id is created twice and none is destroyed twice, the
    size of the target registry after each prefix [es] is the number of
    creations of [es] that the target filter accepted minus the number of
    destructions of [es] that match an accepted creation; a second
    [targetCreated] for an id that is already registered is a fatal error
    when the target filter accepts it, and is recorded as ignored, with no
    error, when the filter rejects it. *)
Theorem registry_size_invariant contextIds targetFilterCallback
    isPageTargetCallback :
  let b0 := Browser_new contextIds targetFilterCallback isPageTargetCallback in
  (forall es rest,
     NoDup (created_ids (es ++ rest)) ->
     NoDup (destroyed_ids (es ++ rest)) ->
     JsMap.size (_targets (run b0 es))
     = accepted_creations (_targetFilterCallback b0) es
       - matching_destructions (_targetFilterCallback b0) es
     /\ matching_destructions (_targetFilterCallback b0) es
        <= accepted_creations (_targetFilterCallback b0) es)
  /\ (forall b info,
       JsMap.has (targetId info) (_targets b) = true ->
       (_targetFilterCallback b info = true ->
        thrown (targetCreated b info)
        = Some (Error "Target should not exist before targetCreated")
        /\ after (targetCreated b info) = b)
       /\ (_targetFilterCallback b info = false ->
           thrown (targetCreated b info) = None
           /\ _targets (after (targetCreated b info)) = _targets b
           /\ targetId info ∈ _ignoredTargets (after (targetCreated b info)))).
Proof.
  intros b0. split.
  - intros es rest Hc Hd. unfold created_ids, destroyed_ids in Hc, Hd.
    rewrite omap_app in Hc, Hd.
    apply NoDup_app in Hc as [Hc _]. apply NoDup_app in Hd as [Hd _].
    pose proof (tracking_size es b0 []
                  (tracking_start contextIds targetFilterCallback
                     isPageTargetCallback es Hc Hd)) as Hsize.
    unfold matching_destructions.
    change (JsMap.size (_targets b0)) with 0 in Hsize. lia.
  - intros b info Hhas. unfold targetCreated.
    destruct (resolve_context_total b info) as [ctx ->]. split.
    + intros ->. by rewrite Hhas.
    + intros ->. simpl. split; [done|]. split; [done|]. set_solver.
Qed.

Lemma registry_size_invariant_witness :
  JsMap.size (_targets (run browser_filtering lifecycle))
  = accepted_creations (_targetFilterCallback browser_filtering) lifecycle
    - matching_destructions (_targetFilterCallback browser_filtering) lifecycle
  /\ matching_destructions (_targetFilterCallback browser_filtering) lifecycle
     <= accepted_creations (_targetFilterCallback browser_filtering) lifecycle.
Proof.
  apply (proj1 (registry_size_invariant [] (Some filter_internal) None)
           lifecycle [Protocol.targetDestroyed "t3"]).
  - simpl. distinct_ids.
  - simpl. distinct_ids.
Defined.

Example lifecycle_registry :
  JsMap.keys (_targets (run browser_filtering (take 3 lifecycle))) = ["t1"]
  /\ JsMap.size (_targets (run browser_filtering lifecycle)) = 0
  /\ accepted_creations filter_internal lifecycle = 1
  /\ matching_destructions filter_internal lifecycle = 1.
Proof. repeat split. Qed.

(** ** Targets rejected by the filter *)

Lemma step_registry_wf b e : registry_wf b -> registry_wf (after (step b e)).
Proof.
  intros Hwf. destruct e as [info|id|info|id success]; simpl.
  - unfold targetCreated. destruct (resolve_context b info); [|done].
    destruct (_targetFilterCallback b info); simpl; [|done].
    destruct (JsMap.has (targetId info) (_targets b)); simpl; [done|].
    intros id target Hin. simpl in Hin.
    apply elem_of_set in Hin as [[= -> ->]|Hin]; [done | by apply Hwf].
  - unfold targetDestroyed. case_bool_decide; [done|].
    destruct (JsMap.get id (_targets b)); simpl; [|done].
    intros id' target Hin. simpl in Hin.
    apply elem_of_delete in Hin as [_ Hin]. by apply Hwf.
  - unfold targetInfoChanged. case_bool_decide; [done|].
    destruct (JsMap.get (targetId info) (_targets b)); simpl; [|done].
    intros id' target Hin. simpl in Hin.
    apply elem_of_set in Hin as [[= -> ->]|Hin]; [done | by apply Hwf].
  - unfold initialized.
    destruct (JsMap.get id (_targets b)) as [t|] eqn:Hget; [|done].
    destruct (_initialized t) eqn:Hinit; simpl; [|done].
    intros id' target Hin. simpl in Hin.
    apply elem_of_set in Hin as [[= -> ->]|Hin]; [|by apply Hwf].
    unfold _initializedCallback. rewrite Hinit. simpl.
    by apply Hwf, elem_of_get.
Qed.

Lemma run_registry_wf es : forall b, registry_wf b -> registry_wf (run b es).
Proof.
  induction es as [|e es IH]; intros b Hwf; [done|].
  rewrite run_cons. by apply IH, step_registry_wf.
Qed.

Lemma Browser_new_registry_wf contextIds targetFilterCallback
    isPageTargetCallback :
  registry_wf (Browser_new contextIds targetFilterCallback isPageTargetCallback).
Proof. intros id target Hin. by apply elem_of_nil in Hin. Qed.

Lemma step_ignored_mono b e id :
  id ∈ _ignoredTargets b -> id ∈ _ignoredTargets (after (step b e)).
Proof.
  intros Hin. destruct e as [info|id'|info|id' success]; simpl.
  - unfold targetCreated. destruct (resolve_context b info); [|done].
    destruct (_targetFilterCallback b info); simpl.
    + by destruct (JsMap.has (targetId info) (_targets b)).
    + apply elem_of_union. by right.
  - unfold targetDestroyed. case_bool_decide; [done|].
    by destruct (JsMap.get id' (_targets b)).
  - unfold targetInfoChanged. case_bool_decide; [done|].
    by destruct (JsMap.get (targetId info) (_targets b)).
  - unfold initialized. destruct (JsMap.get id' (_targets b)) as [t|]; [|done].
    by destruct (_initialized t).
Qed.

Lemma run_ignored_mono es :
  forall b id, id ∈ _ignoredTargets b -> id ∈ _ignoredTargets (run b es).
Proof.
  induction es as [|e es IH]; intros b id Hin; [done|].
  rewrite run_cons. by apply IH, step_ignored_mono.
Qed.

(** Only a [targetCreated] event for an id registers a target under it. *)
Lemma step_unregistered b e id :
  id ∉ created_ids [e] ->
  JsMap.get id (_targets b) = None ->
  JsMap.get id (_targets (after (step b e))) = None.
Proof.
  intros Hnew Hget. destruct e as [info|id'|info|id' success]; simpl.
  - assert (targetId info <> id) as Hne.
    { intros <-. apply Hnew. simpl. apply list_elem_of_here. }
    unfold targetCreated. destruct (resolve_context b info); [|done].
    destruct (_targetFilterCallback b info); simpl; [|done].
    destruct (JsMap.has (targetId info) (_targets b)); simpl; [done|].
    by rewrite get_set_ne.
  - unfold targetDestroyed. case_bool_decide; [done|].
    destruct (JsMap.get id' (_targets b)); simpl; [|done].
    destruct (decide (id' = id)) as [->|Hne].
    + apply get_delete_eq.
    + by rewrite get_delete_ne.
  - unfold targetInfoChanged. case_bool_decide; [done|].
    destruct (JsMap.get (targetId info) (_targets b)) eqn:Hinfo; simpl; [|done].
    rewrite get_set_ne; [done|]. intros Heq. congruence.
  - unfold initialized.
    destruct (JsMap.get id' (_targets b)) as [t|] eqn:Hid'; [|done].
    destruct (_initialized t); simpl; [|done].
    rewrite get_set_ne; [done|]. intros Heq. congruence.
Qed.

Lemma run_unregistered es :
  forall b id,
    id ∉ created_ids es ->
    JsMap.get id (_targets b) = None ->
    JsMap.get id (_targets (run b es)) = None.
Proof.
  induction es as [|e es IH]; intros b id Hnew Hget; [done|].
  rewrite run_cons. apply IH.
  - intros Hin. apply Hnew. change (e :: es) with ([e] ++ es)%list.
    unfold created_ids. rewrite omap_app. apply elem_of_app. by right.
  - apply step_unregistered; [|done].
    intros Hin. apply Hnew. change (e :: es) with ([e] ++ es)%list.
    unfold created_ids. rewrite omap_app. apply elem_of_app. by left.
Qed.

Lemma ignored_events_dropped b id :
  id ∈ _ignoredTargets b ->
  targetDestroyed b id = returns b []
  /\ forall info, targetId info = id -> targetInfoChanged b info = returns b [].
Proof.
  intros Hin. split.
  - unfold targetDestroyed. by rewrite bool_decide_eq_true_2.
  - intros info <-. unfold targetInfoChanged. by rewrite bool_decide_eq_true_2.
Qed.

(** C4, as stated, fails in its clause on [targets()], in two ways. The
    filtering browser rejects the creation of "t1" and accepts a later
    creation of the same id: once that target is initialized, [targets()]
    lists "t1". And when the filtering browser already lists "t1", a
    second creation of "t1" that the filter rejects leaves "t1" listed. *)
Lemma rejected_target_listed :
  _targetFilterCallback browser_filtering info_rejected = false
  /\ List.map (fun target => targetId (_targetInfo target))
       (Browser_targets
          (run (after (targetCreated browser_filtering info_rejected))
             created_again))
     = ["t1"]
  /\ _targetFilterCallback browser_listing_t1 info_rejected = false
  /\ List.map (fun target => targetId (_targetInfo target))
       (Browser_targets (after (targetCreated browser_listing_t1 info_rejected)))
     = ["t1"].
Proof. repeat split. Qed.

(** C4 (amended): when the target filter rejects a [targetCreated] event,
    the handler throws nothing, constructs no Target, emits nothing,
    leaves the registry as it was and records the id as ignored. Whatever
    is delivered afterwards, a [targetDestroyed] or [targetInfoChanged]
    event for that id returns without error, leaves the browser as it was
    and performs no action. As long as the target's id was not registered
    when the event arrived and is not created again, no target with that
    id is listed by [targets()]. *)
Theorem rejected_target_is_ignored b info :
  _targetFilterCallback b info = false ->
  thrown (targetCreated b info) = None
  /\ actions (targetCreated b info) = []
  /\ _targets (after (targetCreated b info)) = _targets b
  /\ targetId info ∈ _ignoredTargets (after (targetCreated b info))
  /\ (forall es,
       targetDestroyed (run (after (targetCreated b info)) es) (targetId info)
       = returns (run (after (targetCreated b info)) es) []
       /\ forall info',
           targetId info' = targetId info ->
           targetInfoChanged (run (after (targetCreated b info)) es) info'
           = returns (run (after (targetCreated b info)) es) [])
  /\ (registry_wf b ->
      JsMap.get (targetId info) (_targets b) = None ->
      forall es,
        targetId info ∉ created_ids es ->
        forall target,
          target ∈ Browser_targets (run (after (targetCreated b info)) es) ->
          targetId (_targetInfo target) <> targetId info).
Proof.
  intros Hf.
  assert (after (targetCreated b info)
          = with_ignoredTargets b ({[targetId info]} ∪ _ignoredTargets b)
          /\ actions (targetCreated b info) = []
          /\ thrown (targetCreated b info) = None) as (Hafter & Hacts & Hthrown).
  { unfold targetCreated. destruct (resolve_context_total b info) as [ctx ->].
    by rewrite Hf. }
  assert (targetId info ∈ _ignoredTargets (after (targetCreated b info)))
    as Hign.
  { rewrite Hafter. simpl. apply elem_of_union. left. by apply elem_of_singleton. }
  split; [done|]. split; [done|]. split; [by rewrite Hafter|].
  split; [done|]. split.
  - intros es. apply ignored_events_dropped. by apply run_ignored_mono.
  - intros Hwf Hget es Hnew target Hin Hid.
    unfold Browser_targets in Hin.
    apply list_elem_of_In, filter_In in Hin as [Hin _].
    apply list_elem_of_In, elem_of_values in Hin as [k Hin].
    assert (registry_wf (run (after (targetCreated b info)) es)) as Hwf'.
    { apply run_registry_wf. by rewrite Hafter. }
    apply Hwf' in Hin as Hk. rewrite Hid in Hk. subst k.
    apply elem_of_keys, keys_get_Some in Hin as [t Ht].
    rewrite run_unregistered in Ht; [done | done |]. by rewrite Hafter.
Qed.

Lemma rejected_target_is_ignored_witness :
  thrown (targetCreated browser_filtering info_rejected) = None
  /\ actions (targetCreated browser_filtering info_rejected) = []
  /\ targetDestroyed
       (run (after (targetCreated browser_filtering info_rejected))
          after_rejection) "t1"
     = returns
         (run (after (targetCreated browser_filtering info_rejected))
            after_rejection) []
  /\ (forall target,
        target
        ∈ Browser_targets
            (run (after (targetCreated browser_filtering info_rejected))
               after_rejection) ->
        targetId (_targetInfo target) <> "t1").
Proof.
  destruct (rejected_target_is_ignored browser_filtering info_rejected eq_refl)
    as (Hthrown & Hacts & _ & _ & Hlater & Hlisted).
  split; [exact Hthrown|]. split; [exact Hacts|]. split.
  - exact (proj1 (Hlater after_rejection)).
  - apply (Hlisted (Browser_new_registry_wf [] (Some filter_internal) None)
             eq_refl after_rejection).
    simpl. rewrite list_elem_of_singleton. discriminate.
Defined.

Example rejected_then_listed :
  List.map (fun target => targetId (_targetInfo target))
    (Browser_targets
       (run (after (targetCreated browser_filtering info_rejected))
          after_rejection))
  = ["t2"].
Proof. reflexivity. Qed.

(** ** Closing a browser context *)

Lemma contexts_wf_set b cid :
  contexts_wf b ->
  contexts_wf
    (with_contexts b
       (JsMap.set cid (mkBrowserContext (Some cid)) (_contexts b))).
Proof.
  intros [Hdef Hreg]. split; [done|]. simpl. intros k c Hin.
  apply elem_of_set in Hin as [[= -> ->]|Hin]; [done | by apply Hreg].
Qed.

Lemma Browser_new_contexts_wf contextIds targetFilterCallback
    isPageTargetCallback :
  contexts_wf (Browser_new contextIds targetFilterCallback isPageTargetCallback).
Proof.
  split; [done|]. simpl.
  assert (forall m : list (string * BrowserContext),
            (forall k c, (k, c) ∈ m -> _id c = Some k) ->
            forall k c,
              (k, c)
              ∈ fold_left
                  (fun m contextId =>
                     JsMap.set contextId (mkBrowserContext (Some contextId)) m)
                  contextIds m ->
              _id c = Some k) as Hfold.
  { induction contextIds as [|cid cids IH]; intros m Hm; [done|]. simpl.
    apply IH. intros k c Hin.
    apply elem_of_set in Hin as [[= -> ->]|Hin]; [done | by apply Hm]. }
  apply Hfold. intros k c Hin. by apply elem_of_nil in Hin.
Qed.

Lemma createIncognitoBrowserContext_contexts_wf b proxyServer proxyBypassList
    response :
  contexts_wf b ->
  contexts_wf
    (after (createIncognitoBrowserContext b proxyServer proxyBypassList
              response).1).
Proof.
  intros Hwf. unfold createIncognitoBrowserContext.
  destruct response as [cid|e]; simpl; [|done]. by apply contexts_wf_set.
Qed.

(** C7: [close()] on a context that is not incognito (the default
    context, which has no id) fails with the error of the failed assertion
    whatever the remote end would answer, sends nothing and leaves the
    browser as it was. On an incognito context it sends one dispose
    request for the context's id; when that request is answered, [close()]
    succeeds and the registry has lost the entry of that id, so that the
    context is not among [browserContexts()] any more; when the request
    fails, [close()] fails with its error and the registry is as before. *)
Theorem close_default_fails_incognito_disposes b this response :
  (isIncognito this = false ->
   close b this response
   = throws b [] (Error "Non-incognito profiles cannot be closed!"))
  /\ (isIncognito this = true ->
      exists cid,
        _id this = Some cid
        /\ actions (close b this response)
           = [Send (Target_disposeBrowserContext cid)]
        /\ match response with
           | Success _ =>
               thrown (close b this response) = None
               /\ after (close b this response)
                  = with_contexts b (JsMap.delete cid (_contexts b))
               /\ JsMap.has cid (_contexts (after (close b this response)))
                  = false
               /\ (contexts_wf b ->
                   this ∉ browserContexts (after (close b this response)))
           | Failure e =>
               thrown (close b this response) = Some e
               /\ after (close b this response) = b
           end).
Proof.
  unfold close, isIncognito. split.
  - by intros ->.
  - intros Hinc. rewrite Hinc. simpl.
    destruct this as [[cid|]]; [|done]. simpl in *. exists cid.
    rewrite Hinc. simpl. split; [done|].
    destruct response as [payload|e]; simpl; [|done].
    split; [done|]. split; [done|]. split; [|split]; [done| |].
    + apply has_false, get_delete_eq.
    + intros [Hdef Hreg]. unfold browserContexts. simpl.
      apply not_elem_of_cons. split.
      * intros Heq. rewrite <- Heq in Hdef. done.
      * intros Hin. apply elem_of_values in Hin as [k Hin].
        apply elem_of_delete in Hin as [Hne Hin].
        apply Hreg in Hin. simpl in Hin. congruence.
Qed.

Lemma close_default_fails_incognito_disposes_witness :
  close browser_ctx1 (_defaultContext browser_ctx1) (Success "")
  = throws browser_ctx1 [] (Error "Non-incognito profiles cannot be closed!")
  /\ exists cid,
       _id context_ctx1 = Some cid
       /\ actions (close browser_ctx1 context_ctx1 (Success ""))
          = [Send (Target_disposeBrowserContext cid)]
       /\ thrown (close browser_ctx1 context_ctx1 (Success "")) = None
       /\ after (close browser_ctx1 context_ctx1 (Success ""))
          = with_contexts browser_ctx1
              (JsMap.delete cid (_contexts browser_ctx1))
       /\ JsMap.has cid
            (_contexts (after (close browser_ctx1 context_ctx1 (Success ""))))
          = false
       /\ (contexts_wf browser_ctx1 ->
           context_ctx1
           ∉ browserContexts
               (after (close browser_ctx1 context_ctx1 (Success "")))).
Proof.
  split.
  - exact (proj1 (close_default_fails_incognito_disposes browser_ctx1
                    (_defaultContext browser_ctx1) (Success "")) eq_refl).
  - exact (proj2 (close_default_fails_incognito_disposes browser_ctx1
                    context_ctx1 (Success "")) eq_refl).
Defined.

Example close_ctx1 :
  browserContexts browser_ctx1 = [mkBrowserContext None; context_ctx1]
  /\ browserContexts (after (close browser_ctx1 context_ctx1 (Success "")))
     = [mkBrowserContext None]
  /\ contexts_wf browser_ctx1.
Proof.
  split; [reflexivity|]. split; [reflexivity|]. apply Browser_new_contexts_wf.
Qed.

(** ** Permissions *)

Lemma protocol_tokens_truthy permission token :
  JsMap.get permission WEB_PERMISSION_TO_PROTOCOL_PERMISSION = Some token ->
  truthy token = true.
Proof.
  unfold WEB_PERMISSION_TO_PROTOCOL_PERMISSION. simpl.
  repeat (case_decide; [by intros [= <-]|]). done.
Qed.

Lemma protocolPermission_mapped permission token :
  JsMap.get permission WEB_PERMISSION_TO_PROTOCOL_PERMISSION = Some token ->
  protocolPermission permission = inr token.
Proof.
  intros Hget. unfold protocolPermission. rewrite Hget.
  by rewrite (protocol_tokens_truthy permission token).
Qed.

Lemma protocolPermission_unmapped permission :
  JsMap.get permission WEB_PERMISSION_TO_PROTOCOL_PERMISSION = None ->
  protocolPermission permission
  = inl (Error ("Unknown permission: " +:+ permission)).
Proof. intros Hget. unfold protocolPermission. by rewrite Hget. Qed.

(** The map over the names either translates every name, or stops at the
    first name that has no entry in the table. *)
Lemma protocolPermissions_spec permissions :
  (exists tokens,
     protocolPermissions permissions = inr tokens
     /\ Forall2
          (fun permission token =>
             JsMap.get permission WEB_PERMISSION_TO_PROTOCOL_PERMISSION
             = Some token)
          permissions tokens)
  \/ (exists mapped unknown rest,
        permissions = (mapped ++ unknown :: rest)%list
        /\ Forall
             (fun permission =>
                is_Some
                  (JsMap.get permission WEB_PERMISSION_TO_PROTOCOL_PERMISSION))
             mapped
        /\ JsMap.get unknown WEB_PERMISSION_TO_PROTOCOL_PERMISSION = None
        /\ protocolPermissions permissions
           = inl (Error ("Unknown permission: " +:+ unknown))).
Proof.
  induction permissions as [|permission permissions IH].
  - left. exists []. by split.
  - cbn [protocolPermissions].
    destruct (JsMap.get permission WEB_PERMISSION_TO_PROTOCOL_PERMISSION)
      as [token|] eqn:Hget.
    + rewrite (protocolPermission_mapped _ _ Hget).
      destruct IH as [(tokens & -> & Hall)|(mapped & unknown & rest & -> & Hm & Hu & ->)].
      * left. exists (token :: tokens). split; [done|]. by constructor.
      * right. exists (permission :: mapped), unknown, rest.
        split; [done|]. split; [|done]. constructor; [by eexists | done].
    + rewrite (protocolPermission_unmapped _ Hget).
      right. exists [], permission, permissions. by repeat split.
Qed.

(** C8: when a permission list holds a name with no entry in the lookup
    table, [overridePermissions] fails with the error
    "Unknown permission: " followed by the first such name, sends no
    request and leaves the browser as it was; when every name has an
    entry, it sends exactly one grant request, with the tokens of all the
    names in order, scoped to the id of the context (no id for the default
    context). *)
Theorem overridePermissions_all_or_nothing b this origin permissions response :
  (forall permission,
     permission ∈ permissions ->
     JsMap.get permission WEB_PERMISSION_TO_PROTOCOL_PERMISSION = None ->
     exists mapped unknown rest,
       permissions = (mapped ++ unknown :: rest)%list
       /\ Forall
            (fun permission =>
               is_Some
                 (JsMap.get permission WEB_PERMISSION_TO_PROTOCOL_PERMISSION))
            mapped
       /\ JsMap.get unknown WEB_PERMISSION_TO_PROTOCOL_PERMISSION = None
       /\ overridePermissions b this origin permissions response
          = throws b [] (Error ("Unknown permission: " +:+ unknown)))
  /\ ((forall permission,
        permission ∈ permissions ->
        is_Some (JsMap.get permission WEB_PERMISSION_TO_PROTOCOL_PERMISSION)) ->
      exists tokens,
        Forall2
          (fun permission token =>
             JsMap.get permission WEB_PERMISSION_TO_PROTOCOL_PERMISSION
             = Some token)
          permissions tokens
        /\ actions (overridePermissions b this origin permissions response)
           = [Send
                (Browser_grantPermissions origin
                   (if isIncognito this then _id this else None) tokens)]
        /\ after (overridePermissions b this origin permissions response) = b).
Proof.
  unfold overridePermissions.
  destruct (protocolPermissions_spec permissions)
    as [(tokens & -> & Hall)|(mapped & unknown & rest & Hsplit & Hm & Hu & ->)].
  - split.
    + intros permission Hin Hget. exfalso.
      apply list_elem_of_lookup in Hin as [i Hi].
      destruct (Forall2_lookup_l _ _ _ _ _ Hall Hi) as (token & _ & Htoken).
      congruence.
    + intros _. exists tokens. split; [done|].
      by destruct response.
  - split.
    + intros _ _ _. by exists mapped, unknown, rest.
    + intros Hall. exfalso.
      assert (unknown ∈ permissions) as Hin.
      { rewrite Hsplit. apply elem_of_app. right. apply list_elem_of_here. }
      apply Hall in Hin as [token Htoken]. congruence.
Qed.

Lemma overridePermissions_all_or_nothing_witness :
  (exists mapped unknown rest,
     ["camera"; "bogus"] = (mapped ++ unknown :: rest)%list
     /\ Forall
          (fun permission =>
             is_Some
               (JsMap.get permission WEB_PERMISSION_TO_PROTOCOL_PERMISSION))
          mapped
     /\ JsMap.get unknown WEB_PERMISSION_TO_PROTOCOL_PERMISSION = None
     /\ overridePermissions browser0 (_defaultContext browser0)
          "https://example.com" ["camera"; "bogus"] (Success "")
        = throws browser0 [] (Error ("Unknown permission: " +:+ unknown)))
  /\ (exists tokens,
        Forall2
          (fun permission token =>
             JsMap.get permission WEB_PERMISSION_TO_PROTOCOL_PERMISSION
             = Some token)
          ["camera"; "microphone"] tokens
        /\ actions
             (overridePermissions browser_ctx1 context_ctx1
                "https://example.com" ["camera"; "microphone"] (Success ""))
           = [Send
                (Browser_grantPermissions "https://example.com"
                   (if isIncognito context_ctx1 then _id context_ctx1
                    else None) tokens)]
        /\ after
             (overridePermissions browser_ctx1 context_ctx1
                "https://example.com" ["camera"; "microphone"] (Success ""))
           = browser_ctx1).
Proof.
  split.
  - apply (proj1 (overridePermissions_all_or_nothing browser0
                    (_defaultContext browser0) "https://example.com"
                    ["camera"; "bogus"] (Success "")) "bogus").
    + apply list_elem_of_further, list_elem_of_here.
    + reflexivity.
  - apply (proj2 (overridePermissions_all_or_nothing browser_ctx1 context_ctx1
                    "https://example.com" ["camera"; "microphone"]
                    (Success ""))).
    intros permission Hin.
    apply elem_of_cons in Hin as [->|Hin]; [by eexists|].
    apply list_elem_of_singleton in Hin as ->. by eexists.
Defined.

Example overridePermissions_camera_bogus :
  overridePermissions browser0 (_defaultContext browser0)
    "https://example.com" ["camera"; "bogus"] (Success "")
  = throws browser0 [] (Error "Unknown permission: bogus")
  /\ actions
       (overridePermissions browser_ctx1 context_ctx1 "https://example.com"
          ["camera"; "microphone"] (Success ""))
     = [Send
          (Browser_grantPermissions "https://example.com" (Some "ctx1")
             ["videoCapture"; "audioCapture"])].
Proof. split; reflexivity. Qed.

(** C10: the table is not injective: "clipboard-read" and
    "clipboard-write" both map to "clipboardReadWrite", and
    "ambient-light-sensor", "accelerometer", "gyroscope" and
    "magnetometer" all map to "sensors"; the grant request built from the
    two distinct clipboard names carries the token "clipboardReadWrite"
    twice. *)
Theorem permission_table_not_injective :
  JsMap.get "clipboard-read" WEB_PERMISSION_TO_PROTOCOL_PERMISSION
  = Some "clipboardReadWrite"
  /\ JsMap.get "clipboard-write" WEB_PERMISSION_TO_PROTOCOL_PERMISSION
     = Some "clipboardReadWrite"
  /\ List.map
       (fun permission =>
          JsMap.get permission WEB_PERMISSION_TO_PROTOCOL_PERMISSION)
       ["ambient-light-sensor"; "accelerometer"; "gyroscope"; "magnetometer"]
     = [Some "sensors"; Some "sensors"; Some "sensors"; Some "sensors"]
  /\ NoDup ["clipboard-read"; "clipboard-write"]
  /\ (forall b this origin response,
        grant_requests
          (actions
             (overridePermissions b this origin
                ["clipboard-read"; "clipboard-write"] response))
        = [Browser_grantPermissions origin (or_undefined (_id this))
             ["clipboardReadWrite"; "clipboardReadWrite"]]).
Proof.
  split; [reflexivity|]. split; [reflexivity|]. split; [reflexivity|].
  split; [distinct_ids|].
  intros b this origin response. by destruct response.
Qed.

(** ** waitForTarget *)

(** Once a call has settled, nothing that reaches it changes it. *)
Lemma react_settled w s :
  listening w = false -> settled w <> Pending -> react w s = w.
Proof.
  intros Hl Hs. destruct s as [target|ms]; simpl.
  - by rewrite Hl.
  - unfold waitWithTimeout_elapse. by destruct (settled w).
Qed.

Lemma react_all_cons w s ss : react_all w (s :: ss) = react_all (react w s) ss.
Proof. reflexivity. Qed.

Lemma react_all_settled ss w :
  listening w = false -> settled w <> Pending -> react_all w ss = w.
Proof.
  induction ss as [|s ss IH]; intros Hl Hs; [done|].
  rewrite react_all_cons, react_settled by done. by apply IH.
Qed.

(** A call without a timer, still pending, is settled by the first
    emitted target that satisfies the predicate, and by nothing else. *)
Lemma react_all_no_timer ss w :
  timer w = None -> settled w = Pending -> listening w = true ->
  isResolved w = false -> targetPromise w = None ->
  settled (react_all w ss)
  = match List.find (predicate w) (emitted_targets ss) with
    | Some target => Fulfilled target
    | None => Pending
    end.
Proof.
  induction ss as [|s ss IH]; intros Ht Hs Hl Hr Hp; [done|].
  rewrite react_all_cons. destruct s as [target|ms]; simpl.
  - rewrite Hl. unfold check. rewrite Hr.
    destruct (predicate w target) eqn:Hpred; simpl.
    + unfold settle. rewrite Hs. simpl.
      by rewrite (react_all_settled ss).
    + unfold settle. rewrite Hs, Hp. by apply IH.
  - unfold waitWithTimeout_elapse. rewrite Hs, Ht. by apply IH.
Qed.

(** C9: a call of [waitForTarget] with timeout 0 never fails with a
    TimeoutError, however much time passes: it stays pending as long as
    no TargetCreated / TargetChanged event delivers a target that
    satisfies the predicate, and it resolves with the first delivered
    target that does. *)
Theorem waitForTarget_zero_timeout_waits_for_event b predicate ss :
  settled (react_all (waitForTarget b predicate (Some 0%Z)) ss)
  = match List.find predicate (emitted_targets ss) with
    | Some target => Fulfilled target
    | None => Pending
    end.
Proof. by apply (react_all_no_timer ss). Qed.

Example waitForTarget_examples :
  settled
    (react_all (waitForTarget browser0 (fun _ => true) (Some 0%Z))
       [Elapsed 30000; Elapsed 1000000])
  = Pending
  /\ settled
       (react_all (waitForTarget browser0 (fun _ => true) (Some 0%Z))
          [Elapsed 30000; Emitted target_t1; Elapsed 1000000])
     = Fulfilled target_t1
  /\ settled
       (react_all (waitForTarget browser0 (fun _ => true) (Some 5000%Z))
          [Elapsed 3000; Elapsed 2000; Emitted target_t1])
     = Rejected (TimeoutError "target" 5000).
Proof. repeat split. Qed.

(** The existing targets are checked when the timeout is not 0: the call
    resolves at once with the first listed target that satisfies the
    predicate. *)
Lemma fold_check_find ts :
  forall w,
    isResolved w = false -> targetPromise w = None ->
    targetPromise (fold_left check ts w) = List.find (predicate w) ts
    /\ predicate (fold_left check ts w) = predicate w.
Proof.
  induction ts as [|t ts IH]; intros w Hr Hp; [done|]. simpl.
  unfold check at 2 4. rewrite Hr.
  destruct (predicate w t) eqn:Hpred; simpl.
  - clear IH. set (w' := mkWaiter _ _ _ _ _ _).
    assert (forall ts, fold_left check ts w' = w') as Hfix.
    { induction ts0 as [|t0 ts0 IH0]; [done|]. simpl. unfold check at 2.
      simpl. by rewrite andb_false_r. }
    by rewrite Hfix.
  - by apply IH.
Qed.

Lemma waitForTarget_checks_existing b predicate timeout :
  timeout <> 0%Z ->
  settled (waitForTarget b predicate (Some timeout))
  = match List.find predicate (Browser_targets b) with
    | Some target => Fulfilled target
    | None => Pending
    end.
Proof.
  intros Hne. unfold waitForTarget. simpl.
  rewrite (proj2 (Z.eqb_neq timeout 0) Hne).
  set (w := mkWaiter predicate false None true None Pending).
  destruct (fold_check_find (Browser_targets b) w eq_refl eq_refl) as [-> _].
  unfold settle. simpl. by destruct (List.find predicate (Browser_targets b)).
Qed.

(** C2 fails on the code for timeout 0. The browser lists the initialized
    target "t1" and the predicate holds for every target: with the
    default timeout the call resolves with "t1" at once, but with timeout
    0 the early return skips the check of the existing targets and the
    call is still pending, also after any amount of time without a new
    event. *)
Theorem waitForTarget_zero_timeout_skips_existing :
  Browser_targets browser_with_t1 = [target_t1]
  /\ settled (waitForTarget browser_with_t1 (fun _ => true) None)
     = Fulfilled target_t1
  /\ settled (waitForTarget browser_with_t1 (fun _ => true) (Some 0%Z))
     = Pending
  /\ (forall ms,
        settled
          (react_all (waitForTarget browser_with_t1 (fun _ => true) (Some 0%Z))
             [Elapsed ms])
        = Pending)
  /\ (forall b predicate,
        settled (waitForTarget b predicate (Some 0%Z)) = Pending).
Proof. repeat split. Qed.

(** * Further properties of the code *)

(** ** More on insertion-ordered maps *)

Section JsMapOrder.
Context {V : Type}.
Implicit Types (m : list (string * V)) (k : string) (v : V).

Lemma set_fresh m k v :
  JsMap.get k m = None -> JsMap.set k v m = (m ++ [(k, v)])%list.
Proof.
  induction m as [|[k' v'] m IH]; simpl; [done|].
  destruct (decide (k = k')); [done|]. intros H. by rewrite IH.
Qed.

Lemma delete_app m1 m2 k :
  JsMap.delete k (m1 ++ m2)%list
  = (JsMap.delete k m1 ++ JsMap.delete k m2)%list.
Proof.
  induction m1 as [|[k' v'] m1 IH]; simpl; [done|].
  destruct (decide (k = k')); [done|]. by rewrite IH.
Qed.

Lemma delete_set_fresh m k v :
  JsMap.get k m = None -> JsMap.delete k (JsMap.set k v m) = m.
Proof.
  intros Hget. rewrite set_fresh, delete_app, delete_absent by done.
  simpl. rewrite decide_True by done. apply app_nil_r.
Qed.

Lemma values_set_fresh m k v :
  JsMap.get k m = None ->
  JsMap.values (JsMap.set k v m) = (JsMap.values m ++ [v])%list.
Proof.
  intros Hget. rewrite set_fresh by done. unfold JsMap.values.
  by rewrite fmap_app.
Qed.

Lemma keys_delete m k :
  JsMap.keys (JsMap.delete k m)
  = List.filter (fun k' => negb (bool_decide (k' = k))) (JsMap.keys m).
Proof.
  unfold JsMap.keys. induction m as [|[k' v'] m IH]; simpl; [done|].
  destruct (decide (k = k')) as [->|Hne].
  - by rewrite bool_decide_eq_true_2.
  - rewrite bool_decide_eq_false_2 by congruence. simpl. f_equal. apply IH.
Qed.

Lemma values_get_in m k v : JsMap.get k m = Some v -> v ∈ JsMap.values m.
Proof.
  intros Hget. unfold JsMap.values. apply list_elem_of_fmap.
  exists (k, v). split; [done | by apply elem_of_get].
Qed.

Lemma set_present_split m k v old :
  JsMap.get k m = Some old ->
  exists before rest,
    m = (before ++ (k, old) :: rest)%list
    /\ JsMap.get k before = None
    /\ JsMap.set k v m = (before ++ (k, v) :: rest)%list.
Proof.
  induction m as [|[k' v'] m IH]; simpl; [done|].
  destruct (decide (k = k')) as [->|Hne].
  - intros [= ->]. by exists [], m.
  - intros Hget. destruct (IH Hget) as (before & rest & -> & Hnone & ->).
    exists ((k', v') :: before), rest. simpl. by rewrite decide_False.
Qed.

Lemma delete_filter m k :
  JsMap.delete k m
  = List.filter (fun entry => negb (bool_decide (entry.1 = k))) m.
Proof.
  induction m as [|[k' v'] m IH]; simpl; [done|].
  destruct (decide (k = k')) as [->|Hne].
  - by rewrite bool_decide_eq_true_2.
  - rewrite bool_decide_eq_false_2 by congruence. simpl. by rewrite IH.
Qed.
End JsMapOrder.

(** ** The context registry *)

(** X1. When the remote end answers with a context id,
    [createIncognitoBrowserContext] returns the context of that id, which
    [browserContexts()] lists from then on: as the last context when the
    id is new; in the place of the entry that the id had, every other
    entry staying where it was, when the id was registered already. When
    the request fails, the call fails with that error, returns no context
    and leaves the browser as it was. *)
Theorem createIncognitoBrowserContext_registers b proxyServer proxyBypassList
    cid :
  let context := mkBrowserContext (Some cid) in
  let created :=
    createIncognitoBrowserContext b proxyServer proxyBypassList (Success cid)
  in
  created.2 = Some context
  /\ thrown created.1 = None
  /\ JsMap.get cid (_contexts (after created.1)) = Some context
  /\ context ∈ browserContexts (after created.1)
  /\ (JsMap.has cid (_contexts b) = false ->
      _contexts (after created.1) = (_contexts b ++ [(cid, context)])%list
      /\ browserContexts (after created.1)
         = (browserContexts b ++ [context])%list)
  /\ (forall old,
        JsMap.get cid (_contexts b) = Some old ->
        exists before rest,
          _contexts b = (before ++ (cid, old) :: rest)%list
          /\ JsMap.get cid before = None
          /\ _contexts (after created.1)
             = (before ++ (cid, context) :: rest)%list
          /\ browserContexts b
             = _defaultContext b
               :: (JsMap.values before ++ old :: JsMap.values rest)%list
          /\ browserContexts (after created.1)
             = _defaultContext b
               :: (JsMap.values before ++ context :: JsMap.values rest)%list)
  /\ (forall e,
        let failed :=
          createIncognitoBrowserContext b proxyServer proxyBypassList
            (Failure e) in
        failed.2 = None /\ thrown failed.1 = Some e /\ after failed.1 = b).
Proof.
  intros context created. subst created context.
  unfold createIncognitoBrowserContext, browserContexts.
  cbn [fst snd after thrown returns throws with_contexts _contexts
       _defaultContext].
  split; [done|]. split; [done|].
  split; [apply get_set_eq|]. split; [|split; [|split]].
  - apply list_elem_of_further, (values_get_in _ cid), get_set_eq.
  - intros Hhas. apply has_false in Hhas.
    rewrite values_set_fresh, set_fresh by done. done.
  - intros old Hget.
    destruct (set_present_split (_contexts b) cid
                (mkBrowserContext (Some cid)) old Hget)
      as (before & rest & Hsplit & Hnone & Hset).
    exists before, rest. rewrite Hset. split; [done|]. split; [done|].
    split; [done|]. rewrite Hsplit. unfold JsMap.values.
    rewrite !fmap_app. done.
  - done.
Qed.

Lemma createIncognitoBrowserContext_registers_witness :
  browserContexts
    (after (createIncognitoBrowserContext browser0 None None
              (Success "ctx1")).1)
  = [mkBrowserContext None; mkBrowserContext (Some "ctx1")]
  /\ exists before rest,
       _contexts browser_abc
       = (before ++ ("b", mkBrowserContext (Some "b")) :: rest)%list
       /\ JsMap.get "b" before = None
       /\ _contexts
            (after (createIncognitoBrowserContext browser_abc None None
                      (Success "b")).1)
          = (before ++ ("b", mkBrowserContext (Some "b")) :: rest)%list
       /\ browserContexts browser_abc
          = _defaultContext browser_abc
            :: (JsMap.values before
                ++ mkBrowserContext (Some "b") :: JsMap.values rest)%list
       /\ browserContexts
            (after (createIncognitoBrowserContext browser_abc None None
                      (Success "b")).1)
          = _defaultContext browser_abc
            :: (JsMap.values before
                ++ mkBrowserContext (Some "b") :: JsMap.values rest)%list.
Proof.
  split.
  - apply (createIncognitoBrowserContext_registers browser0 None None "ctx1").
    reflexivity.
  - apply (createIncognitoBrowserContext_registers browser_abc None None "b").
    reflexivity.
Defined.

Example createIncognitoBrowserContext_registered_id :
  browserContexts
    (after (createIncognitoBrowserContext browser_abc None None
              (Success "b")).1)
  = [mkBrowserContext None; mkBrowserContext (Some "a");
     mkBrowserContext (Some "b"); mkBrowserContext (Some "c")].
Proof. reflexivity. Qed.

(** X2. Creating an incognito context under a new, non-empty id and then
    closing the context that was returned brings the browser back to what
    it was. *)
Theorem create_then_close_restores b proxyServer proxyBypassList cid payload :
  truthy cid = true ->
  JsMap.has cid (_contexts b) = false ->
  thrown
    (close
       (after (createIncognitoBrowserContext b proxyServer proxyBypassList
                 (Success cid)).1)
       (mkBrowserContext (Some cid)) (Success payload))
  = None
  /\ after
       (close
          (after (createIncognitoBrowserContext b proxyServer proxyBypassList
                    (Success cid)).1)
          (mkBrowserContext (Some cid)) (Success payload))
     = b.
Proof.
  intros Htruthy Hhas. apply has_false in Hhas.
  unfold close, createIncognitoBrowserContext.
  cbn [fst snd after returns _id truthy_opt]. rewrite Htruthy.
  cbn [assert _disposeContext]. rewrite Htruthy.
  cbn [negb returns thrown after]. split; [done|].
  unfold with_contexts. cbn [_contexts]. rewrite delete_set_fresh by done.
  by destruct b.
Qed.

Lemma create_then_close_restores_witness :
  after
    (close
       (after (createIncognitoBrowserContext browser_ctx1 None None
                 (Success "ctx2")).1)
       (mkBrowserContext (Some "ctx2")) (Success ""))
  = browser_ctx1.
Proof.
  apply (create_then_close_restores browser_ctx1 None None "ctx2" "");
    reflexivity.
Defined.

(** X3. A successful [close()] of an incognito context removes the
    registry entry of that context's id, whichever context is registered
    under it, and no other entry: every other id keeps its context and
    its place, and [browserContexts()] is the default context followed by
    the contexts of the entries that are left. When no id is registered
    twice, the list gets shorter by one if the id was registered; it
    stays as it was if the id was not registered. *)
Theorem close_removes_the_entry_of_its_id b this cid payload :
  _id this = Some cid ->
  truthy cid = true ->
  _contexts (after (close b this (Success payload)))
  = List.filter (fun entry => negb (bool_decide (entry.1 = cid))) (_contexts b)
  /\ browserContexts (after (close b this (Success payload)))
     = _defaultContext b
       :: JsMap.values
            (List.filter (fun entry => negb (bool_decide (entry.1 = cid)))
               (_contexts b))
  /\ (forall k,
        k <> cid ->
        JsMap.get k (_contexts (after (close b this (Success payload))))
        = JsMap.get k (_contexts b))
  /\ (NoDup (JsMap.keys (_contexts b)) ->
      JsMap.has cid (_contexts b) = true ->
      S (length (browserContexts (after (close b this (Success payload)))))
      = length (browserContexts b))
  /\ (JsMap.has cid (_contexts b) = false ->
      after (close b this (Success payload)) = b).
Proof.
  intros Hid Htruthy.
  assert (after (close b this (Success payload))
          = with_contexts b (JsMap.delete cid (_contexts b))) as ->.
  { unfold close, _disposeContext, assert. rewrite Hid.
    cbn [truthy_opt]. by rewrite Htruthy. }
  unfold browserContexts. cbn [with_contexts _contexts _defaultContext].
  split; [apply delete_filter|]. split; [by rewrite delete_filter|].
  split; [intros k Hne; by apply get_delete_ne|]. split.
  - intros Hnd Hhas. apply has_true in Hhas. cbn [length]. f_equal.
    unfold JsMap.values. rewrite !length_fmap.
    by apply size_delete_present.
  - intros Hhas. apply has_false in Hhas. rewrite delete_absent by done.
    by destruct b.
Qed.

Lemma close_removes_the_entry_of_its_id_witness :
  browserContexts
    (after (close browser_abc (mkBrowserContext (Some "b")) (Success "")))
  = _defaultContext browser_abc
    :: JsMap.values
         (List.filter (fun entry => negb (bool_decide (entry.1 = "b")))
            (_contexts browser_abc)).
Proof.
  apply (close_removes_the_entry_of_its_id browser_abc
           (mkBrowserContext (Some "b")) "b" ""); reflexivity.
Defined.

Example close_b_of_abc :
  browserContexts
    (after (close browser_abc (mkBrowserContext (Some "b")) (Success "")))
  = [mkBrowserContext None; mkBrowserContext (Some "a");
     mkBrowserContext (Some "c")].
Proof. reflexivity. Qed.

(** X4. After an incognito context has been closed, a [targetCreated]
    event that still names its id is resolved to the default context: a
    target the filter accepts under a new id is registered as a target of
    the default context, and nothing is thrown. *)
Theorem target_of_closed_context_goes_to_default b this cid payload info :
  _id this = Some cid ->
  truthy cid = true ->
  browserContextId info = Some cid ->
  resolve_context (after (close b this (Success payload))) info
  = Some (_defaultContext b)
  /\ (_targetFilterCallback b info = true ->
      JsMap.has (targetId info) (_targets b) = false ->
      thrown (targetCreated (after (close b this (Success payload))) info)
      = None
      /\ JsMap.get (targetId info)
           (_targets
              (after
                 (targetCreated (after (close b this (Success payload)))
                    info)))
         = Some (Target_new info (_defaultContext b))).
Proof.
  intros Hid Htruthy Hinfo.
  assert (after (close b this (Success payload))
          = with_contexts b (JsMap.delete cid (_contexts b))) as ->.
  { unfold close, _disposeContext, assert. rewrite Hid.
    cbn [truthy_opt]. by rewrite Htruthy. }
  assert (resolve_context
            (with_contexts b (JsMap.delete cid (_contexts b))) info
          = Some (_defaultContext b)) as Hres.
  { apply (resolve_context_unknown
             (with_contexts b (JsMap.delete cid (_contexts b))) info cid);
      [done|].
    apply has_false, get_delete_eq. }
  split; [done|]. intros Hf Hhas. unfold targetCreated. rewrite Hres.
  cbn [with_contexts _targetFilterCallback _targets]. rewrite Hf, Hhas.
  simpl. split; [done|]. apply get_set_eq.
Qed.

Lemma target_of_closed_context_goes_to_default_witness :
  resolve_context (after (close browser_ctx1 context_ctx1 (Success "")))
    info_t1_ctx1
  = Some (mkBrowserContext None).
Proof.
  apply (target_of_closed_context_goes_to_default browser_ctx1 context_ctx1
           "ctx1" "" info_t1_ctx1); reflexivity.
Defined.

(** X5. A target created in a context that [createIncognitoBrowserContext]
    has registered under a non-empty id belongs to that context: once its
    initialization has succeeded, the [targets()] of the returned context
    list it and the [targets()] of no other context do. *)
Theorem target_of_created_context b proxyServer proxyBypassList cid info :
  truthy cid = true ->
  browserContextId info = Some cid ->
  _targetFilterCallback b info = true ->
  JsMap.has (targetId info) (_targets b) = false ->
  let context := mkBrowserContext (Some cid) in
  let target :=
    {| _targetInfo := info; _browserContext := context;
       _initialized := InitSettled true |} in
  let b' :=
    run
      (after (createIncognitoBrowserContext b proxyServer proxyBypassList
                (Success cid)).1)
      [Protocol.targetCreated info; Protocol.initialized (targetId info) true]
  in
  JsMap.get (targetId info) (_targets b') = Some target
  /\ target ∈ BrowserContext_targets b' context
  /\ (forall other, other <> context -> target ∉ BrowserContext_targets b' other).
Proof.
  intros Htruthy Hinfo Hf Hhas context target b'.
  assert (JsMap.get (targetId info) (_targets b') = Some target) as Hget.
  { subst b'. unfold run. cbn [fold_left step].
    unfold createIncognitoBrowserContext. cbn [fst after returns].
    unfold targetCreated, resolve_context. rewrite Hinfo, Htruthy.
    cbn [with_contexts _contexts _targetFilterCallback _targets andb].
    unfold JsMap.has at 1. rewrite !get_set_eq. rewrite Hf, Hhas.
    cbn [negb assert after returns]. unfold initialized.
    cbn [with_targets _targets]. rewrite get_set_eq.
    cbn [Target_new _initialized after returns with_targets _targets].
    by rewrite get_set_eq. }
  split; [done|]. unfold BrowserContext_targets, Browser_targets. split.
  - apply list_elem_of_In, filter_In. split.
    + apply filter_In. split; [|done].
      apply list_elem_of_In. unfold JsMap.values.
      apply list_elem_of_fmap. exists (targetId info, target).
      split; [done|]. by apply elem_of_get.
    + by apply bool_decide_eq_true_2.
  - intros other Hne Hin. apply list_elem_of_In, filter_In in Hin as [_ Hin].
    apply bool_decide_eq_true_1 in Hin. simpl in Hin. congruence.
Qed.

Lemma target_of_created_context_witness :
  JsMap.get "t1"
    (_targets
       (run
          (after (createIncognitoBrowserContext browser0 None None
                    (Success "ctx1")).1)
          [Protocol.targetCreated info_t1_ctx1;
           Protocol.initialized "t1" true]))
  = Some
      {| _targetInfo := info_t1_ctx1; _browserContext := context_ctx1;
         _initialized := InitSettled true |}.
Proof.
  apply (target_of_created_context browser0 None None "ctx1" info_t1_ctx1);
    reflexivity.
Defined.

Lemma resolve_context_listed b info context :
  resolve_context b info = Some context -> context ∈ browserContexts b.
Proof.
  unfold resolve_context, browserContexts.
  destruct (browserContextId info) as [cid|].
  - destruct (truthy cid && JsMap.has cid (_contexts b)).
    + intros Hget. apply list_elem_of_further. unfold JsMap.values.
      apply list_elem_of_fmap. exists (cid, context). split; [done|].
      by apply elem_of_get.
    + intros [= <-]. apply list_elem_of_here.
  - intros [= <-]. apply list_elem_of_here.
Qed.

Lemma step_contexts b e :
  _contexts (after (step b e)) = _contexts b
  /\ _defaultContext (after (step b e)) = _defaultContext b.
Proof.
  destruct e as [info|id|info|id success]; simpl.
  - unfold targetCreated. destruct (resolve_context b info); [|done].
    destruct (_targetFilterCallback b info); simpl; [|done].
    by destruct (JsMap.has (targetId info) (_targets b)).
  - unfold targetDestroyed. case_bool_decide; [done|].
    by destruct (JsMap.get id (_targets b)).
  - unfold targetInfoChanged. case_bool_decide; [done|].
    by destruct (JsMap.get (targetId info) (_targets b)).
  - unfold initialized. destruct (JsMap.get id (_targets b)) as [t|]; [|done].
    by destruct (_initialized t).
Qed.

Lemma step_owners_listed b e : owners_listed b -> owners_listed (after (step b e)).
Proof.
  intros Hown id target Hin. unfold browserContexts.
  destruct (step_contexts b e) as [-> ->].
  change (_browserContext target ∈ browserContexts b).
  destruct e as [info|id'|info|id' success]; simpl in Hin.
  - unfold targetCreated in Hin.
    destruct (resolve_context b info) as [context|] eqn:Hres;
      [|by apply (Hown id)].
    destruct (_targetFilterCallback b info); simpl in Hin;
      [|by apply (Hown id)].
    destruct (JsMap.has (targetId info) (_targets b)); simpl in Hin;
      [by apply (Hown id)|].
    apply elem_of_set in Hin as [[= -> ->]|Hin]; [|by apply (Hown id)].
    simpl. by apply (resolve_context_listed b info).
  - unfold targetDestroyed in Hin. case_bool_decide; [by apply (Hown id)|].
    destruct (JsMap.get id' (_targets b)); simpl in Hin;
      [|by apply (Hown id)].
    apply elem_of_delete in Hin as [_ Hin]. by apply (Hown id).
  - unfold targetInfoChanged in Hin. case_bool_decide; [by apply (Hown id)|].
    destruct (JsMap.get (targetId info) (_targets b)) as [t|] eqn:Hget;
      simpl in Hin; [|by apply (Hown id)].
    apply elem_of_set in Hin as [[= -> ->]|Hin]; [|by apply (Hown id)].
    simpl. by apply (Hown (targetId info)), elem_of_get.
  - unfold initialized in Hin.
    destruct (JsMap.get id' (_targets b)) as [t|] eqn:Hget;
      [|by apply (Hown id)].
    destruct (_initialized t) eqn:Hinit; simpl in Hin; [|by apply (Hown id)].
    apply elem_of_set in Hin as [[= -> ->]|Hin]; [|by apply (Hown id)].
    unfold _initializedCallback. rewrite Hinit. simpl.
    by apply (Hown id'), elem_of_get.
Qed.

(** X6. Every registered target is owned by a context that
    [browserContexts()] lists: this holds in a new browser, every
    delivery keeps it, and so does every call of
    [createIncognitoBrowserContext] that fails or that registers an id
    that was not registered. *)
Theorem owners_listed_invariant :
  (forall contextIds targetFilterCallback isPageTargetCallback es,
     owners_listed
       (run (Browser_new contextIds targetFilterCallback isPageTargetCallback)
          es))
  /\ (forall b es, owners_listed b -> owners_listed (run b es))
  /\ (forall b proxyServer proxyBypassList response,
        (forall cid,
           response = Success cid -> JsMap.has cid (_contexts b) = false) ->
        owners_listed b ->
        owners_listed
          (after (createIncognitoBrowserContext b proxyServer proxyBypassList
                    response).1)).
Proof.
  assert (forall es b, owners_listed b -> owners_listed (run b es)) as Hrun.
  { induction es as [|e es IH]; intros b Hown; [done|].
    rewrite run_cons. by apply IH, step_owners_listed. }
  split; [|split].
  - intros contextIds f p es. apply Hrun.
    intros id target Hin. by apply elem_of_nil in Hin.
  - intros b es. apply Hrun.
  - intros b proxyServer proxyBypassList response Hnew Hown.
    unfold createIncognitoBrowserContext.
    destruct response as [cid|e]; [|done]. cbn [fst after returns].
    specialize (Hnew cid eq_refl). apply has_false in Hnew.
    intros id target Hin. cbn [with_contexts _targets] in Hin.
    apply Hown in Hin. unfold browserContexts in *.
    cbn [with_contexts _defaultContext _contexts].
    rewrite values_set_fresh by done.
    apply elem_of_cons in Hin as [Heq|Hin];
      [rewrite Heq; apply list_elem_of_here|].
    apply list_elem_of_further, elem_of_app. by left.
Qed.

Lemma owners_listed_invariant_witness :
  owners_listed
    (after
       (createIncognitoBrowserContext
          (run browser_ctx1
             [Protocol.targetCreated info_t1_ctx1;
              Protocol.initialized "t1" true])
          None None (Success "ctx2")).1).
Proof.
  apply (proj2 (proj2 owners_listed_invariant)).
  - intros cid [= <-]. reflexivity.
  - apply (proj1 owners_listed_invariant ["ctx1"] None None).
Defined.

Example close_leaves_targets_behind :
  Browser_targets
    (after
       (close
          (run browser_ctx1
             [Protocol.targetCreated info_t1_ctx1;
              Protocol.initialized "t1" true])
          context_ctx1 (Success "")))
  = [ {| _targetInfo := info_t1_ctx1; _browserContext := context_ctx1;
         _initialized := InitSettled true |} ]
  /\ browserContexts
       (after
          (close
             (run browser_ctx1
                [Protocol.targetCreated info_t1_ctx1;
                 Protocol.initialized "t1" true])
             context_ctx1 (Success "")))
     = [mkBrowserContext None].
Proof. split; reflexivity. Qed.

(** ** The registry the constructor builds *)

Section Constructor.
Let entry (cid : string) : string * BrowserContext :=
  (cid, mkBrowserContext (Some cid)).
Let register (m : list (string * BrowserContext)) (cid : string) :=
  JsMap.set cid (mkBrowserContext (Some cid)) m.

Lemma register_all_NoDup contextIds :
  forall m, NoDup (JsMap.keys m) ->
            NoDup (JsMap.keys (fold_left register contextIds m)).
Proof.
  induction contextIds as [|cid cids IH]; intros m Hm; [done|].
  simpl. apply IH. by apply keys_set_NoDup.
Qed.

Lemma register_all_get contextIds cid :
  forall m,
    JsMap.get cid (fold_left register contextIds m)
    = if bool_decide (cid ∈ contextIds)
      then Some (mkBrowserContext (Some cid))
      else JsMap.get cid m.
Proof.
  induction contextIds as [|cid' cids IH]; intros m.
  - cbn [fold_left].
    rewrite bool_decide_eq_false_2; [done | apply not_elem_of_nil].
  - cbn [fold_left]. rewrite IH. unfold register.
    destruct (decide (cid ∈ cids)) as [Hin|Hout].
    + rewrite !bool_decide_eq_true_2; [done | by apply list_elem_of_further | done].
    + rewrite (bool_decide_eq_false_2 (cid ∈ cids)) by done.
      destruct (decide (cid = cid')) as [->|Hne].
      * rewrite get_set_eq, bool_decide_eq_true_2; [done|].
        apply list_elem_of_here.
      * rewrite get_set_ne by done. rewrite bool_decide_eq_false_2; [done|].
        rewrite elem_of_cons. tauto.
Qed.

Lemma register_all_fresh contextIds :
  forall m,
    NoDup contextIds ->
    (forall cid, cid ∈ contextIds -> JsMap.get cid m = None) ->
    fold_left register contextIds m = (m ++ List.map entry contextIds)%list.
Proof.
  induction contextIds as [|cid cids IH]; intros m Hnd Hfresh.
  - simpl. by rewrite app_nil_r.
  - apply NoDup_cons in Hnd as [Hnew Hnd]. simpl. rewrite IH; [|done|].
    + unfold register. rewrite set_fresh by apply Hfresh, list_elem_of_here.
      by rewrite <- app_assoc.
    + intros cid' Hin. unfold register. rewrite get_set_ne by congruence.
      by apply Hfresh, list_elem_of_further.
Qed.

(** X7. The constructor registers one context per distinct id of
    [contextIds]: no id is registered twice, an id is registered exactly
    when [contextIds] holds it, each under the context of that id, and,
    when [contextIds] has no repetition, [browserContexts()] is the
    default context followed by the contexts of [contextIds] in their
    order. *)
Theorem Browser_new_registry contextIds targetFilterCallback
    isPageTargetCallback :
  let b := Browser_new contextIds targetFilterCallback isPageTargetCallback in
  NoDup (JsMap.keys (_contexts b))
  /\ (forall cid, cid ∈ JsMap.keys (_contexts b) <-> cid ∈ contextIds)
  /\ (forall cid,
        cid ∈ contextIds ->
        JsMap.get cid (_contexts b) = Some (mkBrowserContext (Some cid)))
  /\ (NoDup contextIds ->
      browserContexts b
      = mkBrowserContext None
        :: List.map (fun cid => mkBrowserContext (Some cid)) contextIds).
Proof.
  intros b. subst b. unfold browserContexts. simpl.
  change (fold_left _ contextIds [])
    with (fold_left register contextIds []).
  split; [|split; [|split]].
  - apply register_all_NoDup, NoDup_nil_2.
  - intros cid. rewrite keys_get_Some, register_all_get.
    case_bool_decide as Hin; simpl.
    + split; [done | by eexists].
    + split; [by intros [? ?] | done].
  - intros cid Hin. rewrite register_all_get. by rewrite bool_decide_eq_true_2.
  - intros Hnd. f_equal. rewrite register_all_fresh by done.
    simpl. unfold JsMap.values. rewrite <- list_fmap_compose.
    by apply list_fmap_ext.
Qed.
End Constructor.

Lemma Browser_new_registry_witness :
  browserContexts (Browser_new ["a"; "b"] None None)
  = [mkBrowserContext None; mkBrowserContext (Some "a");
     mkBrowserContext (Some "b")].
Proof.
  apply (Browser_new_registry ["a"; "b"] None None). distinct_ids.
Defined.

Example Browser_new_repeated_ids :
  browserContexts (Browser_new ["a"; "b"; "a"] None None)
  = [mkBrowserContext None; mkBrowserContext (Some "a");
     mkBrowserContext (Some "b")].
Proof. reflexivity. Qed.

(** ** Destruction and change of targets *)

Lemma _isInitialized_force_failure target :
  _isInitialized (_initializedCallback target false) = _isInitialized target.
Proof.
  by destruct target as [info context [|success]].
Qed.

(** X8. A [targetDestroyed] event for a tracked target that is not
    ignored throws nothing, removes the entry of that id and no other
    from the registry, invokes the closed callback of the target once,
    and emits TargetDestroyed, at browser scope and at the scope of the
    owning context, exactly when the initialization of the target had
    succeeded; a target destroyed while its initialization is pending has
    it settled as failed and no event is emitted for it. *)
Theorem targetDestroyed_tracked b id target :
  id ∉ _ignoredTargets b ->
  JsMap.get id (_targets b) = Some target ->
  let target' := _initializedCallback target false in
  thrown (targetDestroyed b id) = None
  /\ JsMap.get id (_targets (after (targetDestroyed b id))) = None
  /\ (forall id',
        id' <> id ->
        JsMap.get id' (_targets (after (targetDestroyed b id)))
        = JsMap.get id' (_targets b))
  /\ (NoDup (JsMap.keys (_targets b)) ->
      S (JsMap.size (_targets (after (targetDestroyed b id))))
      = JsMap.size (_targets b))
  /\ actions (targetDestroyed b id)
     = ClosedCallback target'
       :: (if _isInitialized target then
             [Emit AtBrowser BrowserEmittedEvents.TargetDestroyed target';
              Emit (AtContext (_browserContext target))
                BrowserEmittedEvents.TargetDestroyed target']
           else [])
  /\ (_initialized target = InitPending ->
      _initialized target' = InitSettled false
      /\ actions (targetDestroyed b id) = [ClosedCallback target']).
Proof.
  intros Hign Hget target'. unfold targetDestroyed.
  rewrite bool_decide_eq_false_2 by done. rewrite Hget.
  cbn [thrown after actions returns with_targets _targets].
  fold target'. split; [done|]. split; [apply get_delete_eq|].
  split; [intros id' Hne; by apply get_delete_ne|].
  split; [intros Hnd; apply size_delete_present; eauto|].
  subst target'. rewrite _isInitialized_force_failure. split.
  - by destruct target as [info context [|success]].
  - intros Hpending. unfold _isInitialized, _initializedCallback.
    by rewrite Hpending.
Qed.

Lemma targetDestroyed_tracked_witness :
  JsMap.get "t1" (_targets (after (targetDestroyed browser_with_t1 "t1")))
  = None
  /\ actions (targetDestroyed browser_with_t1 "t1")
     = [ClosedCallback target_t1;
        Emit AtBrowser BrowserEmittedEvents.TargetDestroyed target_t1;
        Emit (AtContext (mkBrowserContext None))
          BrowserEmittedEvents.TargetDestroyed target_t1].
Proof.
  destruct (targetDestroyed_tracked browser_with_t1 "t1" target_t1)
    as (_ & Hgone & _ & _ & Hacts & _).
  - apply not_elem_of_empty.
  - reflexivity.
  - split; [exact Hgone | exact Hacts].
Defined.

(** X9. A [targetCreated] delivery emits nothing by itself, and whatever
    a delivery emits comes as a pair: the event it announces, first at
    browser scope and then at the scope of the context that owns the
    target, with the same target. *)
Theorem deliveries_emit_in_pairs b e :
  (forall info, emitted (actions (targetCreated b info)) = [])
  /\ (emitted (actions (step b e)) = []
      \/ exists target,
           emitted (actions (step b e))
           = [(AtBrowser, announced e, target);
              (AtContext (_browserContext target), announced e, target)]).
Proof.
  split.
  - intros info. unfold targetCreated.
    destruct (resolve_context b info); [|done].
    destruct (_targetFilterCallback b info); simpl; [|done].
    by destruct (JsMap.has (targetId info) (_targets b)).
  - destruct e as [info|id|info|id success]; simpl.
    + left. unfold targetCreated.
      destruct (resolve_context b info); [|done].
      destruct (_targetFilterCallback b info); simpl; [|done].
      by destruct (JsMap.has (targetId info) (_targets b)).
    + unfold targetDestroyed. case_bool_decide; [by left|].
      destruct (JsMap.get id (_targets b)) as [t|]; [|by left]. simpl.
      destruct (_isInitialized (_initializedCallback t false)); [|by left].
      right. by exists (_initializedCallback t false).
    + unfold targetInfoChanged. case_bool_decide; [by left|].
      destruct (JsMap.get (targetId info) (_targets b)) as [t|]; [|by left].
      simpl.
      destruct (_isInitialized t
                && negb (bool_decide
                           (Target_url t
                            = Target_url (_targetInfoChanged t info))));
        [|by left].
      right. by exists (_targetInfoChanged t info).
    + unfold initialized.
      destruct (JsMap.get id (_targets b)) as [t|]; [|by left].
      destruct (_initialized t) eqn:Hinit; [|by left]. simpl.
      destruct success; [|by left].
      right. by exists (_initializedCallback t true).
Qed.

(** X10. A [targetInfoChanged] event whose target id is neither
    registered nor ignored makes the handler throw; the browser is left
    as it was and nothing is emitted. *)
Theorem targetInfoChanged_unknown_throws b info :
  targetId info ∉ _ignoredTargets b ->
  JsMap.get (targetId info) (_targets b) = None ->
  thrown (targetInfoChanged b info)
  = Some
      (Error
         ("Missing target in targetInfoChanged (id = " +:+ targetId info
          +:+ ")"))
  /\ after (targetInfoChanged b info) = b
  /\ actions (targetInfoChanged b info) = [].
Proof.
  intros Hign Hget. unfold targetInfoChanged.
  rewrite bool_decide_eq_false_2 by done. by rewrite Hget.
Qed.

Lemma targetInfoChanged_unknown_throws_witness :
  thrown (targetInfoChanged browser0 (info_t1 "about:blank"))
  = Some (Error "Missing target in targetInfoChanged (id = t1)")
  /\ after (targetInfoChanged browser0 (info_t1 "about:blank")) = browser0
  /\ actions (targetInfoChanged browser0 (info_t1 "about:blank")) = [].
Proof.
  apply (targetInfoChanged_unknown_throws browser0 (info_t1 "about:blank")).
  - apply not_elem_of_empty.
  - reflexivity.
Defined.

Lemma step_keeps_ignored_registered b e id target :
  id ∈ _ignoredTargets b ->
  JsMap.get id (_targets b) = Some target ->
  exists target',
    JsMap.get id (_targets (after (step b e))) = Some target'
    /\ _targetInfo target' = _targetInfo target
    /\ _browserContext target' = _browserContext target.
Proof.
  intros Hign Hget. destruct e as [info|id'|info|id' success]; simpl.
  - unfold targetCreated. destruct (resolve_context b info); [|eauto].
    destruct (_targetFilterCallback b info); simpl; [|eauto].
    destruct (JsMap.has (targetId info) (_targets b)) eqn:Hhas; simpl;
      [eauto|].
    apply has_false in Hhas. rewrite get_set_ne; [eauto|]. congruence.
  - unfold targetDestroyed. case_bool_decide as Hign'; [eauto|].
    destruct (JsMap.get id' (_targets b)); simpl; [|eauto].
    rewrite get_delete_ne; [eauto|]. congruence.
  - unfold targetInfoChanged. case_bool_decide as Hign'; [eauto|].
    destruct (JsMap.get (targetId info) (_targets b)); simpl; [|eauto].
    rewrite get_set_ne; [eauto|]. congruence.
  - unfold initialized.
    destruct (JsMap.get id' (_targets b)) as [t|] eqn:Hget'; [|eauto].
    destruct (_initialized t) eqn:Hinit; simpl; [|eauto].
    destruct (decide (id' = id)) as [->|Hne].
    + rewrite get_set_eq. eexists. split; [done|].
      unfold _initializedCallback. rewrite Hinit. simpl.
      split; congruence.
    + rewrite get_set_ne by done. eauto.
Qed.

(** X11. A target that is registered under an id that is also in the
    ignored set is never removed and never updated: whatever is delivered
    afterwards, the registry keeps a target under that id, with the same
    target info and the same owner. (The id of a tracked target gets into
    the ignored set when a second [targetCreated] for it is rejected by
    the target filter.) *)
Theorem ignored_registered_target_stays b id target es :
  id ∈ _ignoredTargets b ->
  JsMap.get id (_targets b) = Some target ->
  exists target',
    JsMap.get id (_targets (run b es)) = Some target'
    /\ _targetInfo target' = _targetInfo target
    /\ _browserContext target' = _browserContext target.
Proof.
  revert b target. induction es as [|e es IH]; intros b target Hign Hget.
  - by exists target.
  - rewrite run_cons.
    destruct (step_keeps_ignored_registered b e id target Hign Hget)
      as (t1 & Hget1 & Hinfo1 & Hctx1).
    destruct (IH (after (step b e)) t1) as (t2 & Hget2 & Hinfo2 & Hctx2);
      [by apply step_ignored_mono | done |].
    exists t2. split; [done|]. split; congruence.
Qed.

Lemma ignored_registered_target_stays_witness :
  exists target',
    JsMap.get "t1"
      (_targets
         (run browser_t1_twice
            [Protocol.targetInfoChanged (info_t1 "https://a.com");
             Protocol.targetDestroyed "t1"]))
    = Some target'
    /\ _targetInfo target' = info_t1 "about:blank"
    /\ _browserContext target' = mkBrowserContext None.
Proof.
  apply (ignored_registered_target_stays browser_t1_twice "t1"
           (Target_new (info_t1 "about:blank") (mkBrowserContext None))).
  - apply elem_of_union. left. by apply elem_of_singleton.
  - reflexivity.
Defined.

(** ** Registration and listing of targets *)

Lemma filter_values_app (m1 m2 : list (string * Target)) :
  List.filter _isInitialized (JsMap.values (m1 ++ m2)%list)
  = (List.filter _isInitialized (JsMap.values m1)
     ++ List.filter _isInitialized (JsMap.values m2))%list.
Proof. unfold JsMap.values. by rewrite fmap_app, List.filter_app. Qed.

(** X12. A [targetCreated] event that the filter accepts, for an id that
    is not registered, throws nothing, constructs one Target, with the
    info of the event and the resolved context as its owner, and
    registers it after all the others, which stay as they were; the only
    target that [targets()] can list from then on and did not list before
    is the new one, in the last place. *)
Theorem accepted_creation_registers_last b info :
  _targetFilterCallback b info = true ->
  JsMap.has (targetId info) (_targets b) = false ->
  exists context,
    resolve_context b info = Some context
    /\ context ∈ browserContexts b
    /\ thrown (targetCreated b info) = None
    /\ actions (targetCreated b info) = [Construct (Target_new info context)]
    /\ _targets (after (targetCreated b info))
       = (_targets b ++ [(targetId info, Target_new info context)])%list
    /\ Browser_targets (after (targetCreated b info))
       = (Browser_targets b
          ++ List.filter _isInitialized [Target_new info context])%list
    /\ _contexts (after (targetCreated b info)) = _contexts b
    /\ _ignoredTargets (after (targetCreated b info)) = _ignoredTargets b.
Proof.
  intros Hf Hhas. destruct (resolve_context_total b info) as [context Hres].
  exists context. split; [done|].
  split; [by apply (resolve_context_listed b info)|].
  assert (targetCreated b info
          = returns
              (with_targets b
                 (JsMap.set (targetId info) (Target_new info context)
                    (_targets b)))
              [Construct (Target_new info context)]) as ->.
  { unfold targetCreated. by rewrite Hres, Hf, Hhas. }
  apply has_false in Hhas as Hget.
  cbn [thrown after actions returns].
  split; [done|]. split; [done|].
  unfold Browser_targets. cbn [with_targets _targets _contexts _ignoredTargets].
  rewrite set_fresh by done. split; [done|].
  split; [by rewrite filter_values_app|]. done.
Qed.

Lemma accepted_creation_registers_last_witness :
  exists context,
    resolve_context browser_with_t1 (info_of "t2" "about:blank") = Some context
    /\ _targets
         (after (targetCreated browser_with_t1 (info_of "t2" "about:blank")))
       = (_targets browser_with_t1
          ++ [("t2", Target_new (info_of "t2" "about:blank") context)])%list.
Proof.
  destruct (accepted_creation_registers_last browser_with_t1
              (info_of "t2" "about:blank") eq_refl eq_refl)
    as (context & Hres & _ & _ & _ & Hreg & _).
  exists context. split; [exact Hres | exact Hreg].
Defined.

Lemma filter_absent (ids : list string) id :
  id ∉ ids ->
  List.filter (fun id' => negb (bool_decide (id' = id))) ids = ids.
Proof.
  induction ids as [|id' ids IH]; [done|].
  rewrite not_elem_of_cons. intros [Hne Hout]. simpl.
  rewrite bool_decide_eq_false_2 by congruence. simpl. by rewrite IH.
Qed.

(** What [live_ids_from] needs of a browser: the ids still to be created
    are neither registered nor ignored, and no ignored id is registered. *)
Lemma registry_keys_live es :
  forall b,
    NoDup (created_ids es) ->
    (forall id,
       id ∈ created_ids es ->
       (id ∉ JsMap.keys (_targets b)) /\ (id ∉ _ignoredTargets b)) ->
    (forall id, id ∈ _ignoredTargets b -> id ∉ JsMap.keys (_targets b)) ->
    JsMap.keys (_targets (run b es))
    = live_ids_from (_targetFilterCallback b) (JsMap.keys (_targets b)) es.
Proof.
  induction es as [|e es IH]; intros b Hnd Hfresh Hign; [done|].
  rewrite run_cons.
  destruct e as [info|id|info|id success]; simpl in Hnd, Hfresh |- *.
  - apply NoDup_cons in Hnd as [Hnew Hnd].
    destruct (Hfresh (targetId info)) as [Hkey Hnot];
      [apply list_elem_of_here|].
    apply get_None_keys in Hkey as Hget.
    unfold targetCreated. destruct (resolve_context_total b info) as [ctx ->].
    destruct (_targetFilterCallback b info) eqn:Hf; simpl.
    + apply has_false in Hget as Hhas. rewrite Hhas. simpl.
      set (b' := with_targets b _).
      rewrite (IH b'); subst b'; simpl.
      * by rewrite keys_set_fresh.
      * done.
      * intros id Hin. rewrite keys_set_fresh by done.
        destruct (Hfresh id) as [? ?]; [by apply list_elem_of_further|].
        split; [|done]. rewrite elem_of_app, list_elem_of_singleton.
        intros [?| ->]; done.
      * intros id Hin. rewrite keys_set_fresh by done.
        rewrite elem_of_app, list_elem_of_singleton.
        intros [?| ->]; [by apply (Hign id) | done].
    + set (b' := with_ignoredTargets b _).
      rewrite (IH b'); subst b'; simpl.
      * done.
      * done.
      * intros id Hin.
        destruct (Hfresh id) as [? ?]; [by apply list_elem_of_further|].
        split; [done|]. rewrite elem_of_union, elem_of_singleton.
        intros [->|?]; done.
      * intros id. rewrite elem_of_union, elem_of_singleton.
        intros [->|?]; [done | by apply Hign].
  - unfold targetDestroyed. case_bool_decide as Hin; simpl.
    + rewrite filter_absent by by apply Hign. by apply IH.
    + destruct (JsMap.get id (_targets b)) as [target|] eqn:Hget; simpl.
      * set (b' := with_targets b _).
        rewrite (IH b'); subst b'; simpl.
        -- by rewrite keys_delete.
        -- done.
        -- intros id' Hin'. destruct (Hfresh id' Hin') as [Hkey ?].
           split; [|done]. rewrite keys_delete. intros Hmem.
           apply list_elem_of_In, filter_In in Hmem as [Hmem _].
           by apply Hkey, list_elem_of_In.
        -- intros id' Hin'. rewrite keys_delete. intros Hmem.
           apply list_elem_of_In, filter_In in Hmem as [Hmem _].
           by apply (Hign id'), list_elem_of_In.
      * rewrite filter_absent by by apply get_None_keys. by apply IH.
  - unfold targetInfoChanged. case_bool_decide as Hin; simpl.
    + by apply IH.
    + destruct (JsMap.get (targetId info) (_targets b)) as [target|] eqn:Hget;
        simpl; [|by apply IH].
      set (b' := with_targets b _).
      assert (JsMap.keys (_targets b') = JsMap.keys (_targets b)) as Hkeys
          by (subst b'; simpl; apply keys_set_present; eauto).
      rewrite (IH b'); rewrite ?Hkeys; done.
  - unfold initialized.
    destruct (JsMap.get id (_targets b)) as [target|] eqn:Hget; simpl;
      [|by apply IH].
    destruct (_initialized target); simpl; [|by apply IH].
    set (b' := with_targets b _).
    assert (JsMap.keys (_targets b') = JsMap.keys (_targets b)) as Hkeys
        by (subst b'; simpl; apply keys_set_present; eauto).
    rewrite (IH b'); rewrite ?Hkeys; done.
Qed.

(** X13. Along every sequence of deliveries to a new browser in which no
    target id is created twice, the registry holds, in this order, the ids
    whose creation the target filter accepted and that no later
    [targetDestroyed] has named. *)
Theorem registry_lists_live_ids contextIds targetFilterCallback
    isPageTargetCallback es :
  NoDup (created_ids es) ->
  JsMap.keys
    (_targets
       (run (Browser_new contextIds targetFilterCallback isPageTargetCallback)
          es))
  = live_ids
      (_targetFilterCallback
         (Browser_new contextIds targetFilterCallback isPageTargetCallback))
      es.
Proof.
  intros Hnd. unfold live_ids. rewrite registry_keys_live; [done | done | |].
  - intros id _. split; [apply not_elem_of_nil | apply not_elem_of_empty].
  - intros id Hin. by apply not_elem_of_empty in Hin.
Qed.

Lemma registry_lists_live_ids_witness :
  JsMap.keys (_targets (run browser_filtering churn))
  = live_ids (_targetFilterCallback browser_filtering) churn.
Proof.
  apply (registry_lists_live_ids [] (Some filter_internal) None churn).
  simpl. distinct_ids.
Defined.

Example churn_live_ids :
  live_ids filter_internal churn = ["t2"; "t4"]
  /\ JsMap.keys (_targets (run browser_filtering churn)) = ["t2"; "t4"].
Proof. split; reflexivity. Qed.

(** ** Calls of waitForTarget in flight *)

Lemma fold_check_unresolved ts :
  forall w,
    List.find (predicate w) ts = None -> fold_left check ts w = w.
Proof.
  induction ts as [|t ts IH]; intros w Hfind; [done|]. simpl in *.
  destruct (predicate w t) eqn:Hpred; [done|].
  unfold check at 2. rewrite Hpred. simpl. by apply IH.
Qed.

Lemma waitForTarget_start b p options_timeout :
  waiter_ok (waitForTarget b p options_timeout)
  /\ predicate (waitForTarget b p options_timeout) = p
  /\ forall target,
       settled (waitForTarget b p options_timeout) = Fulfilled target ->
       target ∈ Browser_targets b.
Proof.
  unfold waitForTarget.
  destruct (default 30000%Z options_timeout =? 0)%Z; [by repeat split|].
  set (w := mkWaiter p false None true None Pending).
  destruct (List.find p (Browser_targets b)) as [target|] eqn:Hfind.
  - destruct (fold_check_find (Browser_targets b) w eq_refl eq_refl)
      as [Hpromise _].
    cbn [predicate w] in Hpromise. rewrite Hfind in Hpromise.
    unfold settle, waiter_ok. cbn [settled targetPromise predicate listening].
    rewrite Hpromise. cbn [settled targetPromise predicate listening].
    apply find_some in Hfind as [Hin Hp].
    split; [done|]. split; [done|].
    intros t [= <-]. by apply list_elem_of_In.
  - rewrite (fold_check_unresolved (Browser_targets b) w Hfind).
    by repeat split.
Qed.

Lemma react_ok w s :
  waiter_ok w ->
  waiter_ok (react w s)
  /\ predicate (react w s) = predicate w
  /\ forall target,
       settled (react w s) = Fulfilled target ->
       settled w = Fulfilled target \/ s = Emitted target.
Proof.
  intros Hok.
  assert (forall w' : Waiter,
            w' = w ->
            waiter_ok w'
            /\ predicate w' = predicate w
            /\ forall target,
                 settled w' = Fulfilled target ->
                 settled w = Fulfilled target \/ s = Emitted target)
    as Hsame.
  { intros w' ->. split; [done|]. split; [done|]. intros target. by left. }
  destruct s as [t|ms]; simpl.
  - destruct (listening w) eqn:Hl; [|by apply Hsame].
    unfold waiter_ok in Hok. destruct (settled w) eqn:Hs.
    + destruct Hok as (_ & Hr & Hp). unfold check. rewrite Hr.
      destruct (predicate w t) eqn:Hpred; cbn [andb negb].
      * unfold settle, waiter_ok. cbn [settled targetPromise]. rewrite Hs.
        cbn [settled listening predicate].
        split; [done|]. split; [done|]. intros target [= <-]. by right.
      * apply Hsame. unfold settle. by rewrite Hs, Hp.
    + destruct Hok as [Hl' _]. congruence.
    + congruence.
  - unfold waitWithTimeout_elapse.
    destruct (settled w) eqn:Hs; [|by apply Hsame | by apply Hsame].
    destruct (timer w) as [[timeout remaining]|]; [|by apply Hsame].
    unfold waiter_ok in *. rewrite Hs in Hok.
    destruct (remaining <=? ms)%Z; cbn [settled listening predicate].
    + split; [done|]. split; [done|]. intros target [=].
    + split; [done|]. split; [done|]. intros target [=].
Qed.

Lemma react_all_ok ss :
  forall w,
    waiter_ok w ->
    waiter_ok (react_all w ss)
    /\ predicate (react_all w ss) = predicate w
    /\ forall target,
         settled (react_all w ss) = Fulfilled target ->
         settled w = Fulfilled target \/ target ∈ emitted_targets ss.
Proof.
  induction ss as [|s ss IH]; intros w Hok.
  - split; [done|]. split; [done|]. by left.
  - rewrite react_all_cons.
    destruct (react_ok w s Hok) as (Hok' & Hpred & Hful).
    destruct (IH (react w s) Hok') as (Hok'' & Hpred' & Hful').
    split; [done|]. split; [congruence|].
    intros target Hsettled.
    destruct (Hful' target Hsettled) as [Hnow|Hlater].
    + destruct (Hful target Hnow) as [?| ->]; [by left|].
      right. simpl. apply list_elem_of_here.
    + right. destruct s; simpl; [by apply list_elem_of_further | done].
Qed.

Lemma waiter_ok_accepts w target :
  waiter_ok w -> settled w = Fulfilled target -> predicate w target = true.
Proof. unfold waiter_ok. intros Hok Hs. rewrite Hs in Hok. by destruct Hok. Qed.

Lemma waiter_ok_listening w :
  waiter_ok w ->
  listening w = match settled w with Pending => true | _ => false end.
Proof.
  unfold waiter_ok. destruct (settled w); [by intros [? _] | by intros [? _] | done].
Qed.

(** X14. Whatever its timeout and whatever reaches it, a call of
    [waitForTarget] is only ever fulfilled with a target that its
    predicate accepts, and that target is one of the targets that
    [targets()] listed at the call or one that a TargetCreated /
    TargetChanged event delivered afterwards. *)
Theorem waitForTarget_fulfilled_with_accepted_target b p options_timeout ss
    target :
  settled (react_all (waitForTarget b p options_timeout) ss) = Fulfilled target ->
  p target = true
  /\ (target ∈ Browser_targets b \/ target ∈ emitted_targets ss).
Proof.
  intros Hsettled.
  destruct (waitForTarget_start b p options_timeout) as (Hok & Hpred & Hstart).
  destruct (react_all_ok ss _ Hok) as (Hok' & Hpred' & Hful).
  split.
  - rewrite <- Hpred, <- Hpred'. by apply waiter_ok_accepts.
  - destruct (Hful target Hsettled) as [Hnow|Hlater]; [left | by right].
    by apply Hstart.
Qed.

Lemma waitForTarget_fulfilled_with_accepted_target_witness :
  (target_t1 ∈ Browser_targets browser0
   \/ target_t1 ∈ emitted_targets [Elapsed 10; Emitted target_t1]).
Proof.
  apply (waitForTarget_fulfilled_with_accepted_target browser0
           (fun target => bool_decide (Target_url target = "about:blank"))
           (Some 1000%Z) [Elapsed 10; Emitted target_t1] target_t1).
  reflexivity.
Defined.

(** X15. A call of [waitForTarget] settles once: its listeners are
    registered exactly as long as it is pending, and once it is fulfilled
    or has timed out, no later event and no passing of time changes it. *)
Theorem waitForTarget_settles_once b p options_timeout ss :
  listening (react_all (waitForTarget b p options_timeout) ss)
  = match settled (react_all (waitForTarget b p options_timeout) ss) with
    | Pending => true
    | _ => false
    end
  /\ (forall ss',
        settled (react_all (waitForTarget b p options_timeout) ss) <> Pending ->
        react_all (waitForTarget b p options_timeout) (ss ++ ss')%list
        = react_all (waitForTarget b p options_timeout) ss).
Proof.
  destruct (waitForTarget_start b p options_timeout) as (Hok & _ & _).
  destruct (react_all_ok ss _ Hok) as (Hok' & _ & _).
  pose proof (waiter_ok_listening _ Hok') as Hl. split; [done|].
  intros ss' Hs. unfold react_all at 1. rewrite fold_left_app.
  apply react_all_settled; [|done]. rewrite Hl.
  by destruct (settled (react_all (waitForTarget b p options_timeout) ss)).
Qed.

Lemma waitForTarget_settles_once_witness :
  settled
    (react_all (waitForTarget browser0 (fun _ => true) (Some 5000%Z))
       ([Elapsed 5000] ++ [Emitted target_t1])%list)
  = Rejected (TimeoutError "target" 5000)
  /\ settled
       (react_all (waitForTarget browser0 (fun _ => true) (Some 5000%Z))
          ([Emitted target_t1] ++ [Elapsed 5000])%list)
     = Fulfilled target_t1.
Proof.
  split.
  - rewrite (proj2 (waitForTarget_settles_once browser0 (fun _ => true)
                      (Some 5000%Z) [Elapsed 5000]) [Emitted target_t1]);
      [reflexivity | discriminate].
  - rewrite (proj2 (waitForTarget_settles_once browser0 (fun _ => true)
                      (Some 5000%Z) [Emitted target_t1]) [Elapsed 5000]);
      [reflexivity | discriminate].
Defined.

(** X16. A call of [BrowserContext.waitForTarget] is only ever fulfilled
    with a target of that context that the given predicate accepts. *)
Theorem BrowserContext_waitForTarget_own_targets b this p options_timeout ss
    target :
  settled (react_all (BrowserContext_waitForTarget b this p options_timeout) ss)
  = Fulfilled target ->
  _browserContext target = this /\ p target = true.
Proof.
  intros Hsettled. unfold BrowserContext_waitForTarget in Hsettled.
  destruct (waitForTarget_start b
              (fun target =>
                 bool_decide (_browserContext target = this) && p target)
              options_timeout) as (Hok & Hpred & _).
  destruct (react_all_ok ss _ Hok) as (Hok' & Hpred' & _).
  pose proof (waiter_ok_accepts _ _ Hok' Hsettled) as Hacc.
  rewrite Hpred', Hpred in Hacc. apply andb_true_iff in Hacc as [Hctx Hp].
  split; [by apply bool_decide_eq_true_1 in Hctx | done].
Qed.

Lemma BrowserContext_waitForTarget_own_targets_witness :
  _browserContext target_t1 = mkBrowserContext None
  /\ _isInitialized target_t1 = true.
Proof.
  apply (BrowserContext_waitForTarget_own_targets browser_with_t1
           (mkBrowserContext None) _isInitialized None [Elapsed 10]
           target_t1).
  reflexivity.
Defined.

Example BrowserContext_waitForTarget_skips_other_contexts :
  settled
    (react_all
       (BrowserContext_waitForTarget browser_with_t1 context_ctx1
          (fun _ => true) None)
       [Emitted target_t1])
  = Pending.
Proof. reflexivity. Qed.

(** ** The permissions of the type [Permission] *)

Lemma Permission_mapped permission :
  permission ∈ Permission ->
  is_Some (JsMap.get permission WEB_PERMISSION_TO_PROTOCOL_PERMISSION).
Proof. intros Hin. by apply keys_get_Some. Qed.

(** X17. The lookup table has an entry for every member of the type
    [Permission], and for nothing else; so [overridePermissions] never
    fails with an unknown permission on a list of members of the type: it
    sends one grant request, with one token per name. *)
Theorem typed_permissions_are_granted b this origin permissions response :
  Forall (fun permission => permission ∈ Permission) permissions ->
  JsMap.keys WEB_PERMISSION_TO_PROTOCOL_PERMISSION = Permission
  /\ exists tokens,
       protocolPermissions permissions = inr tokens
       /\ length tokens = length permissions
       /\ actions (overridePermissions b this origin permissions response)
          = [Send
               (Browser_grantPermissions origin (or_undefined (_id this))
                  tokens)].
Proof.
  intros Htyped. split; [reflexivity|]. unfold overridePermissions.
  destruct (protocolPermissions_spec permissions)
    as [(tokens & Heq & Hall)|(mapped & unknown & rest & Hsplit & _ & Hu & _)].
  - exists tokens. split; [done|]. split.
    + symmetry. by eapply Forall2_length.
    + rewrite Heq. by destruct response.
  - exfalso. rewrite Forall_forall in Htyped.
    destruct (Permission_mapped unknown) as [token Htoken]; [|congruence].
    apply Htyped. rewrite Hsplit. apply elem_of_app. right.
    apply list_elem_of_here.
Qed.

Lemma typed_permissions_are_granted_witness :
  exists tokens,
    protocolPermissions Permission = inr tokens
    /\ length tokens = length Permission
    /\ actions
         (overridePermissions browser0 (_defaultContext browser0)
            "https://example.com" Permission (Success ""))
       = [Send (Browser_grantPermissions "https://example.com"
                  (or_undefined (_id (_defaultContext browser0))) tokens)].
Proof.
  apply (typed_permissions_are_granted browser0 (_defaultContext browser0)
           "https://example.com" Permission (Success "")).
  apply Forall_forall. intros permission Hin. exact Hin.
Defined.
